(** * kube-ovn: the address registry (package [ipam]) and the CIDR queries
    of the gateway controller (pkg/daemon/gateway.go)

    The registry [ipam.IPAM], the queries [getSubnetsCIDR],
    [getSubnetsNeedNAT] and [getLocalPodIPsNeedNAT] and the reconciliation
    [runGateway] are embedded from the Go source.  The [Subnet] type
    with its methods, the interval lists and the helpers of package [util]
    are not among the source files; they are modelled from the spec, each
    under a comment that says so.  Go's [net], [strings] and [errors] are
    modelled as far as the registry uses them. *)

From Stdlib Require Import ZArith Lia List String Ascii.
From Stdlib Require Import DecimalString HexadecimalString DecimalN HexadecimalN.
From stdpp Require Import base option gmap strings list fin_maps.

#[local] Open Scope Z_scope.
#[local] Open Scope string_scope.

(** ** Text helpers (Go's [strings] package) *)

Module strings.

(** [strings.Split(s, sep)] for a one-character separator: always at least
    one field, empty fields kept. *)
Fixpoint Split (sep : ascii) (s : string) : list string :=
  match s with
  | EmptyString => [EmptyString]
  | String a s' =>
      if Ascii.eqb a sep then EmptyString :: Split sep s'
      else match Split sep s' with
           | [] => [String a EmptyString]
           | h :: t => String a h :: t
           end
  end.

(** [strings.Join(l, sep)]. *)
Fixpoint Join (sep : ascii) (l : list string) : string :=
  match l with
  | [] => EmptyString
  | [x] => x
  | x :: t => x ++ String sep (Join sep t)
  end.

(** No character of [s] is [c]. *)
Fixpoint lacks (c : ascii) (s : string) : bool :=
  match s with
  | EmptyString => true
  | String a s' => negb (Ascii.eqb a c) && lacks c s'
  end.

End strings.

(** ** Addresses (Go's [net] package, the part the registry relies on) *)

Module net.

Inductive family := V4 | V6.

#[global] Instance family_eq_dec : EqDecision family.
Proof. solve_decision. Defined.

(** The numeric reading of an address: its family and its value. *)
Record Addr := mkAddr { fam : family; num : Z }.

#[global] Instance Addr_eq_dec : EqDecision Addr.
Proof. solve_decision. Defined.

Definition bits (f : family) : Z := match f with V4 => 32 | V6 => 128 end.

(** Big-endian groups of a number: [k] groups in base [b]. *)
Fixpoint to_groups (b : Z) (k : nat) (n : Z) : list Z :=
  match k with
  | O => []
  | S k' => to_groups b k' (n / b) ++ [n mod b]
  end.

Definition of_groups (b : Z) (l : list Z) : Z :=
  fold_left (fun acc g => acc * b + g) l 0.

Definition dec (n : Z) : string :=
  DecimalString.NilZero.string_of_uint (N.to_uint (Z.to_N n)).

Definition undec (s : string) : option Z :=
  match DecimalString.NilZero.uint_of_string s with
  | Some d => Some (Z.of_N (N.of_uint d))
  | None => None
  end.

Definition hex (n : Z) : string :=
  HexadecimalString.NilZero.string_of_uint (N.to_hex_uint (Z.to_N n)).

(** The letters [A] to [F] as [a] to [f]; every other character as it is. *)
Definition lower (a : ascii) : ascii :=
  match a with
  | "A" => "a" | "B" => "b" | "C" => "c" | "D" => "d" | "E" => "e" | "F" => "f"
  | _ => a
  end%char.

Fixpoint lowers (s : string) : string :=
  match s with
  | EmptyString => EmptyString
  | String a s' => String (lower a) (lowers s')
  end.

(** A hexadecimal number, its letters in either case. *)
Definition unhex (s : string) : option Z :=
  match HexadecimalString.NilZero.uint_of_string (lowers s) with
  | Some d => Some (Z.of_N (N.of_hex_uint d))
  | None => None
  end.

(** Every field parses to a group below [b]. *)
Fixpoint groups_of (rd : string -> option Z) (b : Z) (l : list string)
  : option (list Z) :=
  match l with
  | [] => Some []
  | s :: t =>
      match rd s, groups_of rd b t with
      | Some g, Some gs => if (g <? b)%Z then Some (g :: gs) else None
      | _, _ => None
      end
  end.

(** Dotted quad: four decimal fields below 256.  A field may start with
    zeros and is still read as decimal, as Go's parser did before Go 1.17. *)
Definition parseIPv4 (s : string) : option Z :=
  let fields := strings.Split "."%char s in
  if Nat.eqb (length fields) 4 then
    match groups_of undec 256 fields with
    | Some gs => Some (of_groups 256 gs)
    | None => None
    end
  else None.

(** The fields before the first empty one, and those from it on. *)
Fixpoint span_nonempty (l : list string) : list string * list string :=
  match l with
  | [] => ([], [])
  | s :: t =>
      if String.eqb s EmptyString then ([], l)
      else let '(a, b) := span_nonempty t in (s :: a, b)
  end.

Fixpoint drop_empty (l : list string) : list string :=
  match l with
  | [] => []
  | s :: t => if String.eqb s EmptyString then drop_empty t else l
  end.

(** The run of empty fields that [::] leaves in an IPv6 text is replaced by
    as many zero groups as are missing from eight.  Splitting at the colons
    gives one empty field for a [::] inside the text, two for one at its
    start or end and three for the text [::] itself; it stands for one zero
    group at least.  Any other text with an empty field is left as it is,
    and does not parse. *)
Definition expand6 (fields : list string) : list string :=
  let nonempty := fun s => negb (String.eqb s EmptyString) in
  if forallb nonempty fields then fields
  else
    let '(before, rest) := span_nonempty fields in
    let after := drop_empty rest in
    let empties := (length rest - length after)%nat in
    let expected :=
      (1 + (if before is [] then 1 else 0) + (if after is [] then 1 else 0))%nat in
    if Nat.eqb empties expected && Nat.ltb (length before + length after) 8 then
      before ++ repeat "0" (8 - length before - length after)%nat ++ after
    else fields.

(** The last field of an IPv6 text may be a dotted quad, as in
    [::ffff:10.0.0.1]; it stands for the two groups of its value. *)
Fixpoint tail4 (fields : list string) : list string :=
  match fields with
  | [] => []
  | [s] =>
      match parseIPv4 s with
      | Some n => [hex (n / 65536); hex (n mod 65536)]
      | None => [s]
      end
  | s :: t => s :: tail4 t
  end.

(** Eight hexadecimal groups separated by colons, or the short form with
    one [::], the last two groups as hexadecimal numbers or as one dotted
    quad. *)
Definition parseIPv6 (s : string) : option Z :=
  let fields := expand6 (tail4 (strings.Split ":"%char s)) in
  if Nat.eqb (length fields) 8 then
    match groups_of unhex 65536 fields with
    | Some gs => Some (of_groups 65536 gs)
    | None => None
    end
  else None.

(** [net.ParseIP]: [None] is Go's nil result.  Go looks for the first dot
    or colon of the text and reads a dotted quad or an IPv6 text by it; no
    text is both, so the IPv6 reading is tried when the other fails.  The
    family of the result is that of the form read: the source only tests
    the result against nil. *)
Definition ParseIP (s : string) : option Addr :=
  match parseIPv4 s with
  | Some n => Some (mkAddr V4 n)
  | None =>
      match parseIPv6 s with
      | Some n => Some (mkAddr V6 n)
      | None => None
      end
  end.

Definition in_range (a : Addr) : bool :=
  (0 <=? num a)%Z && (num a <? 2 ^ bits (fam a))%Z.

(** [IP.String]: the text of an address; a value outside the family's range
    has none that parses. *)
Definition String_ (a : Addr) : string :=
  if in_range a then
    match fam a with
    | V4 => strings.Join "."%char (map dec (to_groups 256 4 (num a)))
    | V6 => strings.Join ":"%char (map hex (to_groups 65536 8 (num a)))
    end
  else "<nil>".

(** [net.IPNet]: a network is its family and the first and last address it
    covers. *)
Record IPNet := mkIPNet { net_fam : family; net_first : Z; net_last : Z }.

(** [IPNet.Contains]. *)
Definition Contains (n : IPNet) (a : option Addr) : bool :=
  match a with
  | Some a =>
      bool_decide (fam a = net_fam n)
      && (net_first n <=? num a)%Z && (num a <=? net_last n)%Z
  | None => false
  end.

(** [net.ParseCIDR]: address, slash, prefix length, the address read as a
    dotted quad first and as an IPv6 text next.  [None] is the error
    result. *)
Definition ParseCIDR (s : string) : option (Addr * IPNet) :=
  match strings.Split "/"%char s with
  | [ip; len] =>
      match ParseIP ip, undec len with
      | Some a, Some l =>
          if (l <=? bits (fam a))%Z then
            let size := 2 ^ (bits (fam a) - l) in
            let first := num a / size * size in
            Some (a, mkIPNet (fam a) first (first + size - 1))
          else None
      | _, _ => None
      end
  | _ => None
  end.

End net.

(** ** Go's [errors] package and the [error] interface

    An [error] value is [None] for Go's nil. *)

Module errors.

Inductive error := New (msg : string).

#[global] Instance error_eq_dec : EqDecision error.
Proof. solve_decision. Defined.

End errors.

Abbreviation error := errors.error.

(** ** Package [kubeovnv1]: constants and the subnet resource *)

Module kubeovnv1.

(** Modelled from the spec: the constants of package [kubeovnv1] are not in
    the source.  The spec names the protocols (v4, v6, dual) and the gateway
    modes (distributed, centralized); all that the code below relies on is
    that the constants are distinct. *)
Definition ProtocolIPv4 : string := "IPv4".
Definition ProtocolIPv6 : string := "IPv6".
Definition ProtocolDual : string := "Dual".
Definition GWDistributedType : string := "distributed".
Definition GWCentralizedType : string := "centralized".

(** Modelled from the spec: the subnet resource is declared outside the
    source; these are the fields gateway.go reads (spec 6: gateway mode, NAT
    flag, protocol, CIDR, active gateway). *)
Record SubnetSpec := mkSubnetSpec {
  Protocol : string;
  CIDRBlock : string;
  GatewayType : string;
  NatOutgoing : bool
}.

Record SubnetStatus := mkSubnetStatus { ActivateGateway : string }.

Record Subnet := mkSubnet { Spec : SubnetSpec; Status : SubnetStatus }.

End kubeovnv1.

(** ** The pod resource (package [corev1]) and felix's [ipsets]

    Both are declared outside the repository; what follows is what
    gateway.go reads of a pod and writes of an IP set. *)

Module corev1.

Record PodSpec := mkPodSpec { HostNetwork : bool; NodeName : string }.

Record PodStatus := mkPodStatus { PodIP : string }.

(** [LogicalSwitch] is [pod.Annotations[util.LogicalSwitchAnnotation]], the
    one annotation the gateway reads: the empty string when the pod has no
    such annotation, as Go's map lookup gives. *)
Record Pod := mkPod { LogicalSwitch : string; Spec : PodSpec; Status : PodStatus }.

End corev1.

Module ipsets.

Inductive IPSetType := IPSetTypeHashIP | IPSetTypeHashNet.

(** [Type_] is the field [Type] of the Go struct. *)
Record IPSetMetadata := mkIPSetMetadata {
  MaxSize : Z;
  SetID : string;
  Type_ : IPSetType
}.

End ipsets.

(** ** Package [util] *)

Module util.

Import kubeovnv1.

(** Modelled from the spec: [util.CheckProtocol] is not in the source.  A
    text of two comma-separated parts, an IPv4 one and an IPv6 one (each
    with or without a prefix length), is dual-stack (the spec's CIDR pair);
    a text whose address part is IPv4 is IPv4; any other text counts as
    IPv6. *)
Definition CheckProtocol (address : string) : string :=
  let addr_of := fun s => net.ParseIP (hd "" (strings.Split "/"%char s)) in
  let has := fun f s =>
    match addr_of s with Some a => bool_decide (net.fam a = f) | None => false end in
  match strings.Split ","%char address with
  | [a; b] =>
      if has net.V4 a && has net.V6 b then ProtocolDual
      else if has net.V4 address then ProtocolIPv4 else ProtocolIPv6
  | _ => if has net.V4 address then ProtocolIPv4 else ProtocolIPv6
  end.

(** Modelled from the spec: [util.CheckDualCidrs] is not in the source.  It
    splits a CIDR pair and fails unless the first part parses as an IPv4
    network and the second as an IPv6 network. *)
Definition CheckDualCidrs (cidrStr : string) : string * string * option error :=
  match strings.Split ","%char cidrStr with
  | [a; b] =>
      match net.ParseCIDR a, net.ParseCIDR b with
      | Some (_, n4), Some (_, n6) =>
          if bool_decide (net.net_fam n4 = net.V4) && bool_decide (net.net_fam n6 = net.V6)
          then (a, b, None)
          else ("", "", Some (errors.New "invalid CIDR address"))
      | _, _ => ("", "", Some (errors.New "invalid CIDR address"))
      end
  | _ => ("", "", Some (errors.New "invalid CIDR address"))
  end.

(** Modelled from the spec: [util.FirstSubnetIP] and [util.LastIP] are not
    in the source.  The spec rebuilds the free list as the entire CIDR, so
    they are the first and the last address the network covers; a text that
    is no CIDR gives the empty string and an error. *)
Definition FirstSubnetIP (cidr : string) : string * option error :=
  match net.ParseCIDR cidr with
  | Some (_, n) => (net.String_ (net.mkAddr (net.net_fam n) (net.net_first n)), None)
  | None => ("", Some (errors.New "invalid CIDR address"))
  end.

Definition LastIP (cidr : string) : string * option error :=
  match net.ParseCIDR cidr with
  | Some (_, n) => (net.String_ (net.mkAddr (net.net_fam n) (net.net_last n)), None)
  | None => ("", Some (errors.New "invalid CIDR address"))
  end.

(** [util.IPTableRule], with the fields gateway.go sets and reads. *)
Record IPTableRule := mkIPTableRule {
  Table : string;
  Chain : string;
  Rule : list string
}.

#[global] Instance IPTableRule_eq_dec : EqDecision IPTableRule.
Proof. solve_decision. Defined.

End util.

(** ** Package [ipam] *)

Module ipam.

Import kubeovnv1(ProtocolIPv4, ProtocolIPv6, ProtocolDual).

Definition OutOfRangeError : error := errors.New "AddressOutOfRange".
Definition ConflictError : error := errors.New "AddressConflict".
Definition NoAvailableError : error := errors.New "NoAvailableAddress".
Definition InvalidCIDRError : error := errors.New "CIDRInvalid".

(** [type IP string]: the registry casts between the two freely. *)
Abbreviation IP := string.

(** *** Interval lists *)

(** Modelled from the spec: the types [IPRange] and [IPRangeList] and their
    operations are not in the source, which only builds the one-interval
    list [IPRangeList{&IPRange{Start: IP(firstIP), End: IP(lastIP)}}].  An
    interval is closed and of one family (spec, sections 3 and 4.1); its
    ends are address texts, compared by their numeric reading.  [End_] is
    the field [End]. *)
Record IPRange := mkIPRange { Start : IP; End_ : IP }.

Abbreviation IPRangeList := (list IPRange).

(** Modelled from the spec: the family and the numeric ends of an interval
    whose two ends parse to the same family (spec 3: start and end of the
    same family). *)
Definition bounds (r : IPRange) : option (net.family * Z * Z) :=
  match net.ParseIP (Start r), net.ParseIP (End_ r) with
  | Some s, Some e =>
      if bool_decide (net.fam s = net.fam e) then Some (net.fam s, net.num s, net.num e)
      else None
  | _, _ => None
  end.

(** Modelled from the spec: the interval, closed at both ends, holds the
    address (spec 3). *)
Definition covers (r : IPRange) (a : net.Addr) : bool :=
  match bounds r with
  | Some (f, s, e) => bool_decide (f = net.fam a) && (s <=? net.num a)%Z && (net.num a <=? e)%Z
  | None => false
  end.

(** Modelled from the spec: [contains(addr)] (spec 4.1). *)
Definition Contains (l : IPRangeList) (ip : IP) : bool :=
  match net.ParseIP ip with
  | Some a => existsb (fun r => covers r a) l
  | None => false
  end.

(** Modelled from the spec: what is left of [r] once the addresses of [o]
    are taken out, nothing, one interval or two (spec 4.1: intervals may be
    split or fully removed). *)
Definition rangeMinus (r o : IPRange) : IPRangeList :=
  match bounds r, bounds o with
  | Some (f, s, e), Some (g, a, b) =>
      if bool_decide (f = g) && (a <=? b)%Z && (a <=? e)%Z && (s <=? b)%Z then
        (if (s <? a)%Z then [mkIPRange (Start r) (net.String_ (net.mkAddr f (a - 1)))] else [])
        ++ (if (b <? e)%Z then [mkIPRange (net.String_ (net.mkAddr f (b + 1))) (End_ r)] else [])
      else [r]
  | _, _ => [r]
  end.

(** Modelled from the spec: [subtract(otherRanges)] (spec 4.1): every
    address covered by [others] leaves the list; intervals are split or
    dropped. *)
Definition subtract (l others : IPRangeList) : IPRangeList :=
  fold_left (fun acc o => flat_map (fun r => rangeMinus r o) acc) others l.

(** Modelled from the spec: [allocateExact(addr)] (spec 4.1): the address
    leaves the interval that covers it, which is split around it; [None]
    when [addr] is not free. *)
Definition allocateExact (l : IPRangeList) (ip : IP) : option IPRangeList :=
  if Contains l ip then Some (subtract l [mkIPRange ip ip]) else None.

(** Modelled from the spec: [allocateAny()] (spec 4.1): an interval of the
    list, then an offset within it, both taken from the random draw [seed];
    [None] is NoAvailableAddress, the answer of an empty list. *)
Definition allocateAny (seed : nat) (l : IPRangeList) : option (IP * IPRangeList) :=
  match l !! (seed mod length l)%nat with
  | None => None
  | Some r =>
      match bounds r with
      | Some (f, s, e) =>
          if (s <=? e)%Z then
            let ip := net.String_ (net.mkAddr f (s + Z.of_nat seed mod (e - s + 1))) in
            Some (ip, subtract l [mkIPRange ip ip])
          else None
      | None => None
      end
  end.

(** Modelled from the spec: [r2] starts right after the end of [r1]. *)
Definition adjacent (r1 r2 : IPRange) : bool :=
  match bounds r1, bounds r2 with
  | Some (f, _, e1), Some (g, s2, _) => bool_decide (f = g) && (s2 =? e1 + 1)%Z
  | _, _ => false
  end.

(** Modelled from the spec: the list is sorted by start (spec 3); a
    released address goes before the first interval that starts after
    it. *)
Definition starts_after (r : IPRange) (a : net.Addr) : bool :=
  match bounds r with
  | Some (_, s, _) => (net.num a <? s)%Z
  | None => false
  end.

Fixpoint insert_range (ip : IP) (a : net.Addr) (l : IPRangeList) : IPRangeList :=
  match l with
  | [] => [mkIPRange ip ip]
  | r :: t => if starts_after r a then mkIPRange ip ip :: l else r :: insert_range ip a t
  end.

(** Modelled from the spec: an interval joins the one that follows when
    the two touch (spec 3: no two intervals are adjacent). *)
Definition merge_cons (r : IPRange) (acc : IPRangeList) : IPRangeList :=
  match acc with
  | r2 :: t => if adjacent r r2 then mkIPRange (Start r) (End_ r2) :: t else r :: acc
  | [] => [r]
  end.

(** Modelled from the spec: [release(addr)] (spec 4.1): the address comes
    back as an interval of its own, which is merged with the interval
    before and the interval after it when they touch it. *)
Definition release (l : IPRangeList) (ip : IP) : IPRangeList :=
  match net.ParseIP ip with
  | Some a => fold_right merge_cons [] (insert_range ip a l)
  | None => l
  end.

(** *** Subnet *)

(** Modelled from the spec: the struct [Subnet] is not in the source.  The
    registry reads and writes [Protocol], the four interval lists,
    [V4PodToIP], [V6PodToIP] and [PodToMac]; the CIDR of each family, the
    reverse maps and the name are the remaining fields of the spec's data
    model (section 3).  A lock of the subnet's own is left out. *)
Record Subnet := mkSubnet {
  Name : string;
  Protocol : string;
  V4CIDR : option net.IPNet;
  V6CIDR : option net.IPNet;
  V4FreeIPList : IPRangeList;
  V4ReservedIPList : IPRangeList;
  V6FreeIPList : IPRangeList;
  V6ReservedIPList : IPRangeList;
  V4PodToIP : gmap string IP;
  V4IPToPod : gmap IP string;
  V6PodToIP : gmap string IP;
  V6IPToPod : gmap IP string;
  PodToMac : gmap string string;
  MacToPod : gmap string string
}.

(** The assignments [subnet.Protocol = v], [subnet.V4FreeIPList = v], ...: the
    subnet with one field replaced. *)
Definition set_Protocol (v : string) (s : Subnet) : Subnet :=
  mkSubnet (Name s) v (V4CIDR s) (V6CIDR s) (V4FreeIPList s)
    (V4ReservedIPList s) (V6FreeIPList s) (V6ReservedIPList s) (V4PodToIP s)
    (V4IPToPod s) (V6PodToIP s) (V6IPToPod s) (PodToMac s) (MacToPod s).

Definition set_V4FreeIPList (v : IPRangeList) (s : Subnet) : Subnet :=
  mkSubnet (Name s) (Protocol s) (V4CIDR s) (V6CIDR s) v (V4ReservedIPList s)
    (V6FreeIPList s) (V6ReservedIPList s) (V4PodToIP s) (V4IPToPod s)
    (V6PodToIP s) (V6IPToPod s) (PodToMac s) (MacToPod s).

Definition set_V4ReservedIPList (v : IPRangeList) (s : Subnet) : Subnet :=
  mkSubnet (Name s) (Protocol s) (V4CIDR s) (V6CIDR s) (V4FreeIPList s) v
    (V6FreeIPList s) (V6ReservedIPList s) (V4PodToIP s) (V4IPToPod s)
    (V6PodToIP s) (V6IPToPod s) (PodToMac s) (MacToPod s).

Definition set_V6FreeIPList (v : IPRangeList) (s : Subnet) : Subnet :=
  mkSubnet (Name s) (Protocol s) (V4CIDR s) (V6CIDR s) (V4FreeIPList s)
    (V4ReservedIPList s) v (V6ReservedIPList s) (V4PodToIP s) (V4IPToPod s)
    (V6PodToIP s) (V6IPToPod s) (PodToMac s) (MacToPod s).

Definition set_V6ReservedIPList (v : IPRangeList) (s : Subnet) : Subnet :=
  mkSubnet (Name s) (Protocol s) (V4CIDR s) (V6CIDR s) (V4FreeIPList s)
    (V4ReservedIPList s) (V6FreeIPList s) v (V4PodToIP s) (V4IPToPod s)
    (V6PodToIP s) (V6IPToPod s) (PodToMac s) (MacToPod s).

Definition set_V4PodToIP (v : gmap string IP) (s : Subnet) : Subnet :=
  mkSubnet (Name s) (Protocol s) (V4CIDR s) (V6CIDR s) (V4FreeIPList s)
    (V4ReservedIPList s) (V6FreeIPList s) (V6ReservedIPList s) v (V4IPToPod s)
    (V6PodToIP s) (V6IPToPod s) (PodToMac s) (MacToPod s).

Definition set_V4IPToPod (v : gmap IP string) (s : Subnet) : Subnet :=
  mkSubnet (Name s) (Protocol s) (V4CIDR s) (V6CIDR s) (V4FreeIPList s)
    (V4ReservedIPList s) (V6FreeIPList s) (V6ReservedIPList s) (V4PodToIP s) v
    (V6PodToIP s) (V6IPToPod s) (PodToMac s) (MacToPod s).

Definition set_V6PodToIP (v : gmap string IP) (s : Subnet) : Subnet :=
  mkSubnet (Name s) (Protocol s) (V4CIDR s) (V6CIDR s) (V4FreeIPList s)
    (V4ReservedIPList s) (V6FreeIPList s) (V6ReservedIPList s) (V4PodToIP s)
    (V4IPToPod s) v (V6IPToPod s) (PodToMac s) (MacToPod s).

Definition set_V6IPToPod (v : gmap IP string) (s : Subnet) : Subnet :=
  mkSubnet (Name s) (Protocol s) (V4CIDR s) (V6CIDR s) (V4FreeIPList s)
    (V4ReservedIPList s) (V6FreeIPList s) (V6ReservedIPList s) (V4PodToIP s)
    (V4IPToPod s) (V6PodToIP s) v (PodToMac s) (MacToPod s).

Definition set_PodToMac (v : gmap string string) (s : Subnet) : Subnet :=
  mkSubnet (Name s) (Protocol s) (V4CIDR s) (V6CIDR s) (V4FreeIPList s)
    (V4ReservedIPList s) (V6FreeIPList s) (V6ReservedIPList s) (V4PodToIP s)
    (V4IPToPod s) (V6PodToIP s) (V6IPToPod s) v (MacToPod s).

Definition set_MacToPod (v : gmap string string) (s : Subnet) : Subnet :=
  mkSubnet (Name s) (Protocol s) (V4CIDR s) (V6CIDR s) (V4FreeIPList s)
    (V4ReservedIPList s) (V6FreeIPList s) (V6ReservedIPList s) (V4PodToIP s)
    (V4IPToPod s) (V6PodToIP s) (V6IPToPod s) (PodToMac s) v.

(** The fields of [Subnet] by family. *)
Definition CIDR (f : net.family) (s : Subnet) : option net.IPNet :=
  match f with net.V4 => V4CIDR s | net.V6 => V6CIDR s end.
Definition FreeIPList (f : net.family) (s : Subnet) : IPRangeList :=
  match f with net.V4 => V4FreeIPList s | net.V6 => V6FreeIPList s end.
Definition ReservedIPList (f : net.family) (s : Subnet) : IPRangeList :=
  match f with net.V4 => V4ReservedIPList s | net.V6 => V6ReservedIPList s end.
Definition PodToIP (f : net.family) (s : Subnet) : gmap string IP :=
  match f with net.V4 => V4PodToIP s | net.V6 => V6PodToIP s end.
Definition IPToPod (f : net.family) (s : Subnet) : gmap IP string :=
  match f with net.V4 => V4IPToPod s | net.V6 => V6IPToPod s end.
Definition set_FreeIPList (f : net.family) (v : IPRangeList) (s : Subnet) : Subnet :=
  match f with net.V4 => set_V4FreeIPList v s | net.V6 => set_V6FreeIPList v s end.
Definition set_PodToIP (f : net.family) (v : gmap string IP) (s : Subnet) : Subnet :=
  match f with net.V4 => set_V4PodToIP v s | net.V6 => set_V6PodToIP v s end.
Definition set_IPToPod (f : net.family) (v : gmap IP string) (s : Subnet) : Subnet :=
  match f with net.V4 => set_V4IPToPod v s | net.V6 => set_V6IPToPod v s end.

(** Modelled from the spec: the families a subnet is configured for (spec
    3: v4, v6, or both for dual), read off its [Protocol]. *)
Definition supports (f : net.family) (s : Subnet) : bool :=
  String.eqb (Protocol s) ProtocolDual
  || String.eqb (Protocol s) (match f with net.V4 => ProtocolIPv4 | net.V6 => ProtocolIPv6 end).

(** *** The methods of [Subnet]

    Go writes [subnet.GetStaticAddress(...)]; the methods live in a module
    of that name. *)

Module subnet.

(** *** MAC addresses *)

(** Modelled from the spec: the text of a MAC address is not described; six
    two-digit groups, the last three counting up from zero. *)
Definition hex2 (g : Z) : string :=
  (if (g <? 16)%Z then "0" else "") ++ net.hex g.

(** Modelled from the spec: the [n]-th MAC text. *)
Definition macText (n : nat) : string :=
  "00:00:00:" ++ strings.Join ":"%char (map hex2 (net.to_groups 256 3 (Z.of_nat n))).

(** Modelled from the spec: the MAC generator is not in the source.  A new
    MAC is one that no owner of the subnet holds (spec 4.2: a new,
    subnet-unique MAC): the first of the texts [macText 0], [macText 1], ...
    that [MacToPod] does not know. *)
Definition GetRandomMac (s : Subnet) : string :=
  let n := size (MacToPod s) in
  match List.find (fun k => bool_decide (MacToPod s !! macText k = None)) (seq 0 (S n)) with
  | Some k => macText k
  | None => macText (S n)
  end.

(** Modelled from the spec: reuse or generate (spec 4.2).  A requested MAC
    is taken as it is; with none requested the owner keeps the MAC the
    subnet has recorded for it, and gets a new one when there is none. *)
Definition chooseMac (s : Subnet) (podName mac : string) : string :=
  if String.eqb mac "" then
    match PodToMac s !! podName with
    | Some m => m
    | None => GetRandomMac s
    end
  else mac.

(** Modelled from the spec: the bookkeeping of one assignment (spec 4.2),
    owner to address and back, owner to MAC and back. *)
Definition record (f : net.family) (podName : string) (ip : IP) (mac : string)
  (s : Subnet) : Subnet :=
  set_MacToPod (<[mac := podName]> (MacToPod s))
    (set_PodToMac (<[podName := mac]> (PodToMac s))
      (set_IPToPod f (<[ip := podName]> (IPToPod f s))
        (set_PodToIP f (<[podName := ip]> (PodToIP f s)) s))).

(** Modelled from the spec: the address is recorded for an owner other
    than [podName] (spec 4.2: already owned by a different owner). *)
Definition heldByOther (f : net.family) (s : Subnet) (podName : string) (ip : IP) : bool :=
  match IPToPod f s !! ip with
  | Some other => negb (String.eqb other podName)
  | None => false
  end.

(** Modelled from the spec: [Subnet.GetStaticAddress] is not in the source
    (spec 4.2, allocateStatic).  The address must lie in the subnet's CIDR
    of its family, else AddressOutOfRange; an address that another owner
    holds is AddressConflict; with [force] (the spec's reconciling call) the
    bookkeeping is recorded again and the free list is left alone; without
    it the address is taken out of the free list, and when it is not there
    the cause decides: a reserved address is out of range, any other is a
    conflict.  A failed call changes nothing and hands back the address and
    MAC it was given. *)
Definition GetStaticAddress (subnet : Subnet) (podName : string) (ip : IP)
  (mac : string) (force : bool) : Subnet * (IP * string * option error) :=
  match net.ParseIP ip with
  | None => (subnet, (ip, mac, Some OutOfRangeError))
  | Some a =>
      let f := net.fam a in
      match CIDR f subnet with
      | None => (subnet, (ip, mac, Some OutOfRangeError))
      | Some cidr =>
          if negb (net.Contains cidr (Some a)) then
            (subnet, (ip, mac, Some OutOfRangeError))
          else if heldByOther f subnet podName ip then
            (subnet, (ip, mac, Some ConflictError))
          else
            let mac' := chooseMac subnet podName mac in
            if force then (record f podName ip mac' subnet, (ip, mac', None))
            else
              match allocateExact (FreeIPList f subnet) ip with
              | Some free' =>
                  (record f podName ip mac' (set_FreeIPList f free' subnet), (ip, mac', None))
              | None =>
                  if Contains (ReservedIPList f subnet) ip then
                    (subnet, (ip, mac, Some OutOfRangeError))
                  else (subnet, (ip, mac, Some ConflictError))
              end
      end
  end.

(** Modelled from the spec: one family's share of a random allocation
    (spec 4.2), an address of the free list when the subnet has the family,
    the empty text when it has not. *)
Definition allocateFamily (seed : nat) (f : net.family) (s : Subnet)
  : option (IP * Subnet) :=
  if supports f s then
    match allocateAny seed (FreeIPList f s) with
    | Some (ip, free') => Some (ip, set_FreeIPList f free' s)
    | None => None
    end
  else Some ("", s).

(** Modelled from the spec: the bookkeeping of the families that got an
    address. *)
Definition recordFamily (f : net.family) (podName : string) (ip : IP) (mac : string)
  (s : Subnet) : Subnet :=
  if String.eqb ip "" then s else record f podName ip mac s.

(** Modelled from the spec: [Subnet.GetRandomAddress] is not in the source
    (spec 4.2, allocateRandom).  An owner that holds addresses gets them
    again; otherwise each family of the subnet gives one address of its free
    list, and when a family has none left the call fails with
    NoAvailableAddress and the address already taken for the other family
    goes back to its free list.  [seed] is the random draw of the call. *)
Definition GetRandomAddress (subnet : Subnet) (seed : nat) (podName : string)
  : Subnet * (IP * IP * string * option error) :=
  match V4PodToIP subnet !! podName, V6PodToIP subnet !! podName with
  | None, None =>
      match allocateFamily seed net.V4 subnet with
      | None => (subnet, ("", "", "", Some NoAvailableError))
      | Some (v4IP, s1) =>
          match allocateFamily seed net.V6 s1 with
          | None =>
              (if String.eqb v4IP "" then subnet
               else set_V4FreeIPList (release (V4FreeIPList s1) v4IP) s1,
               ("", "", "", Some NoAvailableError))
          | Some (v6IP, s2) =>
              let mac := chooseMac s2 podName "" in
              (recordFamily net.V6 podName v6IP mac (recordFamily net.V4 podName v4IP mac s2),
               (v4IP, v6IP, mac, None))
          end
      end
  | v4, v6 =>
      (subnet, (default "" v4, default "" v6, default "" (PodToMac subnet !! podName), None))
  end.

(** Modelled from the spec: one family's share of a release (spec 4.2). *)
Definition releaseFamily (f : net.family) (podName : string) (s : Subnet) : Subnet :=
  match PodToIP f s !! podName with
  | Some ip =>
      set_FreeIPList f (release (FreeIPList f s) ip)
        (set_IPToPod f (delete ip (IPToPod f s))
          (set_PodToIP f (delete podName (PodToIP f s)) s))
  | None => s
  end.

(** Modelled from the spec: [Subnet.ReleaseAddress] is not in the source
    (spec 4.2, release).  Every address the owner holds leaves the
    bookkeeping and goes back to the free list of its family; the owner then
    holds nothing in the subnet, so its MAC is forgotten too. *)
Definition ReleaseAddress (subnet : Subnet) (podName : string) : Subnet :=
  let s := releaseFamily net.V6 podName (releaseFamily net.V4 podName subnet) in
  match PodToMac s !! podName with
  | Some mac => set_MacToPod (delete mac (MacToPod s)) (set_PodToMac (delete podName (PodToMac s)) s)
  | None => s
  end.

(** Modelled from the spec: [Subnet.GetPodAddress] is not in the source and
    the spec describes only the registry's query.  It answers the owner's
    two addresses and MAC, each the empty text when there is none (the
    spec's design note on the empty string as absent), and the subnet's
    protocol. *)
Definition GetPodAddress (subnet : Subnet) (podName : string)
  : IP * IP * string * string :=
  (default "" (V4PodToIP subnet !! podName),
   default "" (V6PodToIP subnet !! podName),
   default "" (PodToMac subnet !! podName),
   Protocol subnet).

(** Modelled from the spec: [Subnet.ContainAddress] is not in the source
    (spec 4.2, containAddress): CIDR membership, whatever is allocated. *)
Definition ContainAddress (subnet : Subnet) (address : IP) : bool :=
  match net.ParseIP address with
  | Some a =>
      match CIDR (net.fam a) subnet with
      | Some cidr => net.Contains cidr (Some a)
      | None => false
      end
  | None => false
  end.

(** Modelled from the spec: the addresses recorded in ownerToAddress for
    family [f] (spec 4.3, step 3), each as an interval of its own. *)
Definition assigned (f : net.family) (s : Subnet) : IPRangeList :=
  map (fun '(_, ip) => mkIPRange ip ip) (map_to_list (PodToIP f s)).

(** Modelled from the spec: [Subnet.joinFreeWithReserve] is not in the
    source.  It is the one call between the fresh one-interval free list and
    the re-validation loop of [AddOrUpdateSubnet], and the spec has two
    steps there (4.3, steps 2 and 3): the reserved addresses leave the free
    list, then every address recorded for an owner leaves it; the
    re-validation that follows does not touch the free list (4.2).  Both
    steps are therefore placed here, for each family of the subnet. *)
Definition joinFreeWithReserve (subnet : Subnet) : Subnet :=
  let join := fun f s =>
    if supports f s then
      set_FreeIPList f
        (subtract (subtract (FreeIPList f s) (ReservedIPList f s)) (assigned f s)) s
    else s in
  join net.V6 (join net.V4 subnet).

End subnet.

(** Modelled from the spec: [splitIpsByProtocol] is not in the source; the
    comment at its call says the exclusion list holds both IPv4 and IPv6
    addresses.  The entries go to the list of their protocol. *)
Definition splitIpsByProtocol (excludeIps : list string) : list string * list string :=
  (List.filter (fun ip => String.eqb (util.CheckProtocol ip) ProtocolIPv4) excludeIps,
   List.filter (fun ip => String.eqb (util.CheckProtocol ip) ProtocolIPv6) excludeIps).

(** Modelled from the spec: [convertExcludeIps] is not in the source (spec
    4.3, step 1: reserved is recomputed from the exclusion list).  Every
    entry is one excluded address. *)
Definition convertExcludeIps (excludeIps : list string) : IPRangeList :=
  map (fun ip => mkIPRange ip ip) excludeIps.

(** Modelled from the spec: the one-interval list of a whole network (spec
    4.3, step 2: the entire CIDR). *)
Definition wholeNet (n : option net.IPNet) : IPRangeList :=
  match n with
  | Some n =>
      [mkIPRange (net.String_ (net.mkAddr (net.net_fam n) (net.net_first n)))
                 (net.String_ (net.mkAddr (net.net_fam n) (net.net_last n)))]
  | None => []
  end.

(** Modelled from the spec: [NewSubnet] is not in the source (spec 4.4,
    upsertSubnet, and section 3).  The CIDR of every family of the text must
    parse, else CIDRInvalid; the new subnet has no owners, its reserved
    lists come from the exclusion list and its free lists are the CIDRs
    without the reserved addresses.  [inr] is the error result. *)
Definition NewSubnet (name cidrStr : string) (excludeIps : list string) : Subnet + error :=
  let protocol := util.CheckProtocol cidrStr in
  let nets : option (option net.IPNet * option net.IPNet) :=
    if String.eqb protocol ProtocolDual then
      match util.CheckDualCidrs cidrStr with
      | (v4, v6, None) =>
          match net.ParseCIDR v4, net.ParseCIDR v6 with
          | Some (_, n4), Some (_, n6) => Some (Some n4, Some n6)
          | _, _ => None
          end
      | (_, _, Some _) => None
      end
    else
      match net.ParseCIDR cidrStr with
      | Some (_, n) =>
          match net.net_fam n with
          | net.V4 => Some (Some n, None)
          | net.V6 => Some (None, Some n)
          end
      | None => None
      end in
  match nets with
  | None => inr InvalidCIDRError
  | Some (n4, n6) =>
      let '(v4ExcludeIps, v6ExcludeIps) := splitIpsByProtocol excludeIps in
      inl (subnet.joinFreeWithReserve
             (mkSubnet name protocol n4 n6
                (wholeNet n4) (convertExcludeIps v4ExcludeIps)
                (wholeNet n6) (convertExcludeIps v6ExcludeIps)
                ∅ ∅ ∅ ∅ ∅ ∅))
  end.

(** *** The registry

    [Subnets] maps a name to a pointer to a [Subnet]; every pointer is made
    by [NewSubnet] for one name, so the map holds the subnets themselves and
    a method that mutates a subnet stores the new value under its name.  The
    read-write lock is left out: the methods are modelled run one at a
    time. *)
Record IPAM := mkIPAM { Subnets : gmap string Subnet }.

(** [Subnet_] is the field [Subnet] of the Go struct. *)
Record SubnetAddress := mkSubnetAddress { Subnet_ : Subnet; Ip : string; Mac : string }.

Definition NewIPAM : IPAM := mkIPAM ∅.

(** The subnet behind the pointer has changed: the registry with the new
    value under the name. *)
Definition store (ipam : IPAM) (name : string) (subnet : Subnet) : IPAM :=
  mkIPAM (<[name := subnet]> (Subnets ipam)).

(** [seed] is the random draw the subnet makes. *)
Definition GetRandomAddress (ipam : IPAM) (seed : nat) (podName subnetName : string)
  : IPAM * (string * string * string * option error) :=
  match Subnets ipam !! subnetName with
  | None => (ipam, ("", "", "", Some NoAvailableError))
  | Some subnet =>
      let '(subnet, (v4IP, v6IP, mac, err)) := subnet.GetRandomAddress subnet seed podName in
      (store ipam subnetName subnet, (v4IP, v6IP, mac, err))
  end.

(** [ips[0]] and [ips[1]]: [util.CheckProtocol] answers dual only for a text
    of two parts, so both exist. *)
Definition GetStaticAddress (ipam : IPAM) (podName ip mac subnetName : string)
  : IPAM * (string * string * string * option error) :=
  match Subnets ipam !! subnetName with
  | None => (ipam, ("", "", "", Some NoAvailableError))
  | Some subnet =>
      let protocol := util.CheckProtocol ip in
      if String.eqb protocol ProtocolDual then
        let ips := strings.Split ","%char ip in
        let '(subnet, (v4IP, mac, err)) :=
          subnet.GetStaticAddress subnet podName (nth 0 ips "") mac false in
        let '(subnet, (v6IP, mac, err)) :=
          subnet.GetStaticAddress subnet podName (nth 1 ips "") mac false in
        (store ipam subnetName subnet, (v4IP, v6IP, mac, err))
      else
        let '(subnet, (ip, mac, err)) :=
          subnet.GetStaticAddress subnet podName ip mac false in
        if String.eqb protocol ProtocolIPv4 then
          (store ipam subnetName subnet, (ip, "", mac, err))
        else
          (store ipam subnetName subnet, ("", ip, mac, err))
  end.

(** The loop over all subnets; each subnet is released on its own, so the
    order does not matter. *)
Definition ReleaseAddressByPod (ipam : IPAM) (podName : string) : IPAM :=
  mkIPAM ((fun subnet => subnet.ReleaseAddress subnet podName) <$> Subnets ipam).

(** The line of [klog.Errorf("%s address not in subnet %s new cidr %s", ...)]. *)
Definition notInNewCidr (podName name cidrStr : string) : string :=
  podName ++ " address not in subnet " ++ name ++ " new cidr " ++ cidrStr.

(** The loop [for podName, ip := range subnet.V4PodToIP] (and the one over
    [V6PodToIP]): every recorded owner is allocated again with [force]; an
    error is written to the log and nothing else is done about it.  The
    second component collects the [klog.Errorf] lines. *)
Definition revalidate (name cidrStr : string) (entries : list (string * IP))
  (st : Subnet * list string) : Subnet * list string :=
  foldl (fun '(subnet, log) '(podName, ip) =>
           let mac := default "" (PodToMac subnet !! podName) in
           let '(subnet, (_, _, err)) := subnet.GetStaticAddress subnet podName ip mac true in
           match err with
           | Some _ =>
               (subnet, (log ++ [notInNewCidr podName name cidrStr])%list)
           | None => (subnet, log)
           end)
        st entries.

(** The first lines of [AddOrUpdateSubnet]: the protocol of the CIDR text,
    its IPv4 and IPv6 parts and the parse error. *)
Definition parseCidrs (cidrStr : string) : string * (string * string * option error) :=
  let v4cidrStr := cidrStr in
  let v6cidrStr := cidrStr in
  let protocol := util.CheckProtocol cidrStr in
  if String.eqb protocol ProtocolDual then (protocol, util.CheckDualCidrs cidrStr)
  else
    match net.ParseCIDR cidrStr with
    | Some _ => (protocol, (v4cidrStr, v6cidrStr, None))
    | None => (protocol, (v4cidrStr, v6cidrStr, Some (errors.New "invalid CIDR address")))
    end.

(** The result is the registry, the error lines written to the log, and the
    error returned.  Of a subnet that exists the code assigns [Protocol],
    the reserved list and the free list of each family of the new protocol,
    and no other field.  The maps are ranged over in the order of
    [map_to_list]; Go fixes no order. *)
Definition AddOrUpdateSubnet (ipam : IPAM) (name cidrStr : string) (excludeIps : list string)
  : IPAM * list string * option error :=
  let '(protocol, (v4cidrStr, v6cidrStr, err)) := parseCidrs cidrStr in
  match err with
  | Some _ => (ipam, [], Some InvalidCIDRError)
  | None =>
      let '(v4ExcludeIps, v6ExcludeIps) := splitIpsByProtocol excludeIps in
      match Subnets ipam !! name with
      | Some subnet =>
          let subnet := set_Protocol protocol subnet in
          let '(subnet, log) :=
            if String.eqb protocol ProtocolDual || String.eqb protocol ProtocolIPv4 then
              let subnet := set_V4ReservedIPList (convertExcludeIps v4ExcludeIps) subnet in
              let firstIP := fst (util.FirstSubnetIP v4cidrStr) in
              let lastIP := fst (util.LastIP v4cidrStr) in
              let subnet := set_V4FreeIPList [mkIPRange firstIP lastIP] subnet in
              let subnet := subnet.joinFreeWithReserve subnet in
              revalidate name cidrStr (map_to_list (V4PodToIP subnet)) (subnet, [])
            else (subnet, []) in
          let '(subnet, log) :=
            if String.eqb protocol ProtocolDual || String.eqb protocol ProtocolIPv6 then
              let subnet := set_V6ReservedIPList (convertExcludeIps v6ExcludeIps) subnet in
              let firstIP := fst (util.FirstSubnetIP v6cidrStr) in
              let lastIP := fst (util.LastIP v6cidrStr) in
              let subnet := set_V6FreeIPList [mkIPRange firstIP lastIP] subnet in
              let subnet := subnet.joinFreeWithReserve subnet in
              revalidate name cidrStr (map_to_list (V6PodToIP subnet)) (subnet, log)
            else (subnet, log) in
          (store ipam name subnet, log, None)
      | None =>
          match NewSubnet name cidrStr excludeIps with
          | inr err => (ipam, [], Some err)
          | inl subnet => (store ipam name subnet, [], None)
          end
      end
  end.

Definition DeleteSubnet (ipam : IPAM) (subnetName : string) : IPAM :=
  mkIPAM (delete subnetName (Subnets ipam)).

(** The body of the loop of [GetPodAddress]: the entries one subnet adds. *)
Definition appendPodAddress (podName : string) (addresses : list SubnetAddress)
  (subnet : Subnet) : list SubnetAddress :=
  let '(v4IP, v6IP, mac, protocol) := subnet.GetPodAddress subnet podName in
  if String.eqb protocol ProtocolIPv4 then
    (addresses ++ [mkSubnetAddress subnet v4IP mac])%list
  else if String.eqb protocol ProtocolIPv6 then
    (addresses ++ [mkSubnetAddress subnet v6IP mac])%list
  else
    ((addresses ++ [mkSubnetAddress subnet v4IP mac]) ++ [mkSubnetAddress subnet v6IP mac])%list.

(** The subnets are visited in the order of [map_to_list]; Go fixes no
    order. *)
Definition GetPodAddress (ipam : IPAM) (podName : string) : list SubnetAddress :=
  foldl (fun addresses '(_, subnet) => appendPodAddress podName addresses subnet)
        [] (map_to_list (Subnets ipam)).

Definition ContainAddress (ipam : IPAM) (address : string) : bool :=
  existsb (fun '(_, subnet) => subnet.ContainAddress subnet address)
          (map_to_list (Subnets ipam)).

Definition SplitIpsByProtocol (excludeIps : list string) : list string * list string :=
  splitIpsByProtocol excludeIps.

End ipam.

(** ** Package [daemon]: the CIDR queries of the gateway controller *)

Module daemon.

(** The fields of the controller's configuration that the queries read. *)
Record Configuration := mkConfiguration {
  ServiceClusterIPRange : string;
  NodeLocalDNSIP : string;
  NodeName : string
}.

(** [subnetsLister.List(labels.Everything())]: the subnets of the cluster,
    or an error. *)
Record Controller := mkController {
  config : Configuration;
  protocol : string;
  subnetsLister : list kubeovnv1.Subnet * option error
}.

Definition getSubnetsNeedNAT (c : Controller) (protocol : string)
  : option (list string) * option error :=
  let subnetsNeedNat : list string := [] in
  let '(subnets, err) := subnetsLister c in
  match err with
  | Some e => (None, Some e)
  | None =>
      (Some (foldl (fun subnetsNeedNat subnet =>
                      if String.eqb (kubeovnv1.GatewayType (kubeovnv1.Spec subnet)) kubeovnv1.GWCentralizedType
                         && String.eqb (kubeovnv1.ActivateGateway (kubeovnv1.Status subnet)) (NodeName (config c))
                         && String.eqb (kubeovnv1.Protocol (kubeovnv1.Spec subnet)) protocol
                         && kubeovnv1.NatOutgoing (kubeovnv1.Spec subnet)
                      then (subnetsNeedNat ++ [kubeovnv1.CIDRBlock (kubeovnv1.Spec subnet)])%list
                      else subnetsNeedNat)
                   subnetsNeedNat subnets),
       None)
  end.

(** The slice is [None] for Go's nil.  The controller is only read: the
    result is all the function produces. *)
Definition getSubnetsCIDR (c : Controller) (protocol : string)
  : option (list string) * option error :=
  let ret := [ServiceClusterIPRange (config c)] in
  let ret :=
    if negb (String.eqb (NodeLocalDNSIP (config c)) "")
       && bool_decide (net.ParseIP (NodeLocalDNSIP (config c)) <> None)
    then (ret ++ [NodeLocalDNSIP (config c)])%list
    else ret in
  let '(subnets, err) := subnetsLister c in
  match err with
  | Some e => (None, Some e)
  | None =>
      (Some (foldl (fun ret subnet =>
                      if String.eqb (kubeovnv1.Protocol (kubeovnv1.Spec subnet)) protocol
                      then (ret ++ [kubeovnv1.CIDRBlock (kubeovnv1.Spec subnet)])%list
                      else ret)
                   ret subnets),
       None)
  end.

Definition SubnetSet : string := "subnets".
Definition SubnetNatSet : string := "subnets-nat".
Definition LocalPodSet : string := "local-pod-ip-nat".
Definition IPSetPrefix : string := "ovn".

Definition podNatV4Rule : util.IPTableRule :=
  util.mkIPTableRule "nat" "POSTROUTING"
    (strings.Split " "%char
       "-m set --match-set ovn40local-pod-ip-nat src -m set ! --match-set ovn40subnets dst -j MASQUERADE").

Definition subnetNatV4Rule : util.IPTableRule :=
  util.mkIPTableRule "nat" "POSTROUTING"
    (strings.Split " "%char
       "-m set --match-set ovn40subnets-nat src -m set ! --match-set ovn40subnets dst -j MASQUERADE").

Definition podNatV6Rule : util.IPTableRule :=
  util.mkIPTableRule "nat" "POSTROUTING"
    (strings.Split " "%char
       "-m set --match-set ovn60local-pod-ip-nat src -m set ! --match-set ovn60subnets dst -j MASQUERADE").

Definition subnetNatV6Rule : util.IPTableRule :=
  util.mkIPTableRule "nat" "POSTROUTING"
    (strings.Split " "%char
       "-m set --match-set ovn60subnets-nat src -m set ! --match-set ovn60subnets dst -j MASQUERADE").

Definition forwardAcceptRule1 : util.IPTableRule :=
  util.mkIPTableRule "filter" "FORWARD" (strings.Split " "%char "-i ovn0 -j ACCEPT").

Definition forwardAcceptRule2 : util.IPTableRule :=
  util.mkIPTableRule "filter" "FORWARD"
    (strings.Split " "%char "-o ovn0 -m conntrack --ctstate RELATED,ESTABLISHED -j ACCEPT").

(** What [getLocalPodIPsNeedNAT] reads besides the fields above:
    [podsLister.List(labels.Everything())], the method [Get] of the subnets
    lister, and the environment variable [KUBE_NODE_NAME]. *)
Record Cluster := mkCluster {
  podsLister : list corev1.Pod * option error;
  subnetsGet : string -> kubeovnv1.Subnet + error;
  KUBE_NODE_NAME : string
}.

(** The slice is [None] for the nil returned with an error; a slice that
    was never appended to is the empty list. *)
Definition getLocalPodIPsNeedNAT (k : Cluster) (protocol : string)
  : option (list string) * option error :=
  let localPodIPs : list string := [] in
  let hostname := KUBE_NODE_NAME k in
  let '(allPods, err) := podsLister k in
  match err with
  | Some e => (None, Some e)
  | None =>
      (Some (foldl (fun localPodIPs pod =>
                      if corev1.HostNetwork (corev1.Spec pod)
                         || String.eqb (corev1.PodIP (corev1.Status pod)) ""
                      then localPodIPs
                      else
                        match subnetsGet k (corev1.LogicalSwitch pod) with
                        | inr _ => localPodIPs
                        | inl subnet =>
                            let nsGWType := kubeovnv1.GatewayType (kubeovnv1.Spec subnet) in
                            let nsGWNat := kubeovnv1.NatOutgoing (kubeovnv1.Spec subnet) in
                            if nsGWNat
                               && String.eqb nsGWType kubeovnv1.GWDistributedType
                               && String.eqb (corev1.NodeName (corev1.Spec pod)) hostname
                               && String.eqb (util.CheckProtocol (corev1.PodIP (corev1.Status pod)))
                                             protocol
                            then (localPodIPs ++ [corev1.PodIP (corev1.Status pod)])%list
                            else localPodIPs
                        end)
                   localPodIPs allPods),
       None)
  end.

(** The two clients of the controller, [c.ipset] and [c.iptable], by the
    methods [runGateway] calls.  Their code is outside the repository; a
    method takes the state of the client and gives the new one. *)
Class IPSets (S : Type) := {
  AddOrReplaceIPSet : S -> ipsets.IPSetMetadata -> list string -> S;
  ApplyUpdates : S -> S
}.

Class IPTables (T : Type) := {
  Exists : T -> string -> string -> list string -> bool * option error;
  Insert : T -> string -> string -> Z -> list string -> T * option error
}.

(** What [%+v] prints of an error. *)
Definition verb (err : error) : string := let 'errors.New msg := err in msg.

(** What [%v] prints of a slice of strings. *)
Definition verbs (l : list string) : string := "[" ++ strings.Join " "%char l ++ "]".

Section RunGateway.

Context {S T : Type} `{!IPSets S} `{!IPTables T}.

(** The loop over the rules: the state of the iptables client when the loop
    ends or returns, and the line written with [klog.Errorf], if any. *)
Fixpoint ensureRules (iptable : T) (rules : list util.IPTableRule) : T * list string :=
  match rules with
  | [] => (iptable, [])
  | iptRule :: rules =>
      let '(exists_, err) :=
        Exists iptable (util.Table iptRule) (util.Chain iptRule) (util.Rule iptRule) in
      match err with
      | Some err => (iptable, ["check iptable rule exist failed, " ++ verb err])
      | None =>
          if negb exists_ then
            let '(iptable, err) :=
              Insert iptable (util.Table iptRule) (util.Chain iptRule) 1 (util.Rule iptRule) in
            match err with
            | Some err =>
                (iptable,
                 ["insert iptable rule " ++ verbs (util.Rule iptRule) ++ " failed, " ++ verb err])
            | None => ensureRules iptable rules
            end
          else ensureRules iptable rules
      end
  end.

(** The result is the state of the two clients and the lines [runGateway]
    itself writes with [klog.Errorf]. *)
Definition runGateway (c : Controller) (k : Cluster) (ipset : S) (iptable : T)
  : S * T * list string :=
  let '(subnets, err) := getSubnetsCIDR c (protocol c) in
  match err with
  | Some err => (ipset, iptable, ["get subnets failed, " ++ verb err])
  | None =>
      let '(localPodIPs, err) := getLocalPodIPsNeedNAT k (protocol c) in
      match err with
      | Some err => (ipset, iptable, ["get local pod ips failed, " ++ verb err])
      | None =>
          let '(subnetsNeedNat, err) := getSubnetsNeedNAT c (protocol c) in
          match err with
          | Some err => (ipset, iptable, ["get need nat subnets failed, " ++ verb err])
          | None =>
              let ipset :=
                AddOrReplaceIPSet ipset
                  (ipsets.mkIPSetMetadata 1048576 SubnetSet ipsets.IPSetTypeHashNet)
                  (default [] subnets) in
              let ipset :=
                AddOrReplaceIPSet ipset
                  (ipsets.mkIPSetMetadata 1048576 LocalPodSet ipsets.IPSetTypeHashIP)
                  (default [] localPodIPs) in
              let ipset :=
                AddOrReplaceIPSet ipset
                  (ipsets.mkIPSetMetadata 1048576 SubnetNatSet ipsets.IPSetTypeHashNet)
                  (default [] subnetsNeedNat) in
              let ipset := ApplyUpdates ipset in
              let '(podNatRule, subnetNatRule) :=
                if String.eqb (protocol c) kubeovnv1.ProtocolIPv4
                then (podNatV4Rule, subnetNatV4Rule)
                else (podNatV6Rule, subnetNatV6Rule) in
              let '(iptable, log) :=
                ensureRules iptable
                  [forwardAcceptRule1; forwardAcceptRule2; podNatRule; subnetNatRule] in
              (ipset, iptable, log)
          end
      end
  end.

End RunGateway.

End daemon.

(** ** Predicates of the statements *)

Section Statements.

Import ipam.

(** The CIDR text does not parse: the error test of the first lines of
    [AddOrUpdateSubnet], on the pair of a dual-stack text or on the one CIDR
    of any other text. *)
Definition cidrInvalid (cidrStr : string) : bool :=
  if String.eqb (util.CheckProtocol cidrStr) kubeovnv1.ProtocolDual
  then bool_decide (snd (util.CheckDualCidrs cidrStr) <> None)
  else bool_decide (net.ParseCIDR cidrStr = None).

(** Some interval of the list covers the address. *)
Definition lcovers (l : IPRangeList) (a : net.Addr) : bool :=
  existsb (fun r => covers r a) l.

(** The addresses recorded for family [f] read as addresses of [f]. *)
Definition familyOf (f : net.family) (ip : IP) : bool :=
  match net.ParseIP ip with
  | Some a => bool_decide (net.fam a = f)
  | None => true
  end.

(** The two owner maps of a subnet hold addresses of their family. *)
Definition families_ok (s : Subnet) : bool :=
  forallb (fun '(_, ip) => familyOf net.V4 ip) (map_to_list (V4PodToIP s))
  && forallb (fun '(_, ip) => familyOf net.V6 ip) (map_to_list (V6PodToIP s)).

(** What the re-validation keeps of a subnet: everything but the reverse
    maps and the MAC map, which may grow. *)
Record kept (s s' : Subnet) : Prop := mkKept {
  kept_Protocol : Protocol s' = Protocol s;
  kept_V4CIDR : V4CIDR s' = V4CIDR s;
  kept_V6CIDR : V6CIDR s' = V6CIDR s;
  kept_V4Free : V4FreeIPList s' = V4FreeIPList s;
  kept_V6Free : V6FreeIPList s' = V6FreeIPList s;
  kept_V4Reserved : V4ReservedIPList s' = V4ReservedIPList s;
  kept_V6Reserved : V6ReservedIPList s' = V6ReservedIPList s;
  kept_V4PodToIP : V4PodToIP s' = V4PodToIP s;
  kept_V6PodToIP : V6PodToIP s' = V6PodToIP s;
  kept_V4IPToPod : V4IPToPod s ⊆ V4IPToPod s';
  kept_V6IPToPod : V6IPToPod s ⊆ V6IPToPod s';
  kept_PodToMac : PodToMac s ⊆ PodToMac s'
}.

(** The bookkeeping of the owners of [s] is still there in [s']. *)
Definition owners_kept (s s' : Subnet) : Prop :=
  V4PodToIP s' = V4PodToIP s /\ V6PodToIP s' = V6PodToIP s /\
  V4IPToPod s ⊆ V4IPToPod s' /\ V6IPToPod s ⊆ V6IPToPod s' /\
  PodToMac s ⊆ PodToMac s'.

(** No address recorded for an owner of [s] is in a free list of [s'], for
    the families [s'] is configured for. *)
Definition free_clear_of (s s' : Subnet) : Prop :=
  forall f podName ip,
    supports f s' = true -> PodToIP f s !! podName = Some ip ->
    Contains (FreeIPList f s') ip = false.

(** Every line is the error line of an owner of [s]. *)
Definition lines_of_owners (name cidrStr : string) (s : Subnet) (log : list string) : Prop :=
  forall line, In line log ->
    exists podName, line = notInNewCidr podName name cidrStr /\
      (is_Some (V4PodToIP s !! podName) \/ is_Some (V6PodToIP s !! podName)).

(** The number of entries [GetPodAddress] adds for a subnet: one when the
    subnet answers IPv4 or IPv6, two for any other protocol. *)
Definition entriesFor (podName : string) (subnet : Subnet) : nat :=
  let protocol := snd (subnet.GetPodAddress subnet podName) in
  if String.eqb protocol kubeovnv1.ProtocolIPv4 || String.eqb protocol kubeovnv1.ProtocolIPv6
  then 1 else 2.

(** The entries [GetPodAddress] returns for one subnet: the subnet with the
    IPv4 address for protocol IPv4, with the IPv6 address for protocol IPv6,
    and both, the IPv4 one first, for any other protocol; the addresses and
    the MAC are those the subnet answers for the owner. *)
Definition subnetEntries (podName : string) (subnet : Subnet) : list SubnetAddress :=
  let '(v4IP, v6IP, mac, protocol) := subnet.GetPodAddress subnet podName in
  if String.eqb protocol kubeovnv1.ProtocolIPv4 then [mkSubnetAddress subnet v4IP mac]
  else if String.eqb protocol kubeovnv1.ProtocolIPv6 then [mkSubnetAddress subnet v6IP mac]
  else [mkSubnetAddress subnet v4IP mac; mkSubnetAddress subnet v6IP mac].

(** The node-local DNS address goes into the result when it is configured
    and is an IP address. *)
Definition dnsEntry (c : daemon.Controller) : list string :=
  let dns := daemon.NodeLocalDNSIP (daemon.config c) in
  if negb (String.eqb dns "") && bool_decide (net.ParseIP dns <> None) then [dns] else [].

(** The intervals of a free list are of the family of the list. *)
Definition free_ok (f : net.family) (l : IPRangeList) : Prop :=
  forall r g x y, In r l -> bounds r = Some (g, x, y) -> g = f.

(** The representation invariant of a subnet, as far as families go. *)
Definition wf (s : Subnet) : Prop :=
  families_ok s = true /\ forall f, free_ok f (FreeIPList f s).

(** The address part of a CIDR text is IPv4. *)
Definition hasV4 (address : string) : bool :=
  match net.ParseIP (hd "" (strings.Split "/"%char address)) with
  | Some a => bool_decide (net.fam a = net.V4)
  | None => false
  end.

(** Every subnet of the registry meets the invariant. *)
Definition all_wf (ipam : IPAM) : Prop := map_Forall (fun _ s => wf s) (Subnets ipam).

(** The registries the methods of [IPAM] build from the empty one. *)
Inductive reachable : IPAM -> Prop :=
| reach_NewIPAM : reachable NewIPAM
| reach_GetRandomAddress ipam seed podName subnetName :
    reachable ipam -> reachable (fst (GetRandomAddress ipam seed podName subnetName))
| reach_GetStaticAddress ipam podName ip mac subnetName :
    reachable ipam -> reachable (fst (GetStaticAddress ipam podName ip mac subnetName))
| reach_ReleaseAddressByPod ipam podName :
    reachable ipam -> reachable (ReleaseAddressByPod ipam podName)
| reach_AddOrUpdateSubnet ipam name cidrStr excludeIps :
    reachable ipam -> reachable (fst (fst (AddOrUpdateSubnet ipam name cidrStr excludeIps)))
| reach_DeleteSubnet ipam subnetName :
    reachable ipam -> reachable (DeleteSubnet ipam subnetName).

(** Either call leaves the registry as it is, or stores a new value under
    a name that is registered. *)
Definition restored (ipam ipam' : IPAM) (name : string) : Prop :=
  ipam' = ipam \/
  exists s', is_Some (Subnets ipam !! name) /\ ipam' = store ipam name s'.

(** The subnets [getSubnetsNeedNAT] selects: centralized gateway, active
    on this node, of the protocol asked for, with outgoing NAT. *)
Definition natSubnet (c : daemon.Controller) (protocol : string)
  (subnet : kubeovnv1.Subnet) : bool :=
  String.eqb (kubeovnv1.GatewayType (kubeovnv1.Spec subnet)) kubeovnv1.GWCentralizedType
  && String.eqb (kubeovnv1.ActivateGateway (kubeovnv1.Status subnet))
                (daemon.NodeName (daemon.config c))
  && String.eqb (kubeovnv1.Protocol (kubeovnv1.Spec subnet)) protocol
  && kubeovnv1.NatOutgoing (kubeovnv1.Spec subnet).

(** The pods [getLocalPodIPsNeedNAT] selects. *)
Definition natPod (k : daemon.Cluster) (protocol : string) (pod : corev1.Pod) : bool :=
  negb (corev1.HostNetwork (corev1.Spec pod))
  && negb (String.eqb (corev1.PodIP (corev1.Status pod)) "")
  && match daemon.subnetsGet k (corev1.LogicalSwitch pod) with
     | inl subnet =>
         kubeovnv1.NatOutgoing (kubeovnv1.Spec subnet)
         && String.eqb (kubeovnv1.GatewayType (kubeovnv1.Spec subnet))
                       kubeovnv1.GWDistributedType
         && String.eqb (corev1.NodeName (corev1.Spec pod)) (daemon.KUBE_NODE_NAME k)
         && String.eqb (util.CheckProtocol (corev1.PodIP (corev1.Status pod))) protocol
     | inr _ => false
     end.

(** The four rules [runGateway] looks after, in the order of its loop. *)
Definition gatewayRules (c : daemon.Controller) : list util.IPTableRule :=
  if String.eqb (daemon.protocol c) kubeovnv1.ProtocolIPv4
  then [daemon.forwardAcceptRule1; daemon.forwardAcceptRule2;
        daemon.podNatV4Rule; daemon.subnetNatV4Rule]
  else [daemon.forwardAcceptRule1; daemon.forwardAcceptRule2;
        daemon.podNatV6Rule; daemon.subnetNatV6Rule].

(** The iptables client reports the rule as there. *)
Definition present {T : Type} `{!daemon.IPTables T} (iptable : T) (r : util.IPTableRule) : Prop :=
  daemon.Exists iptable (util.Table r) (util.Chain r) (util.Rule r) = (true, None).

(** What the statements about [runGateway] ask of the iptables client: a
    rule that was inserted without an error is there, and a rule that was
    there still is after another one is inserted. *)
Definition insert_lawful (T : Type) `{!daemon.IPTables T} : Prop :=
  forall (iptable iptable' : T) table chain rule,
    daemon.Insert iptable table chain 1 rule = (iptable', None) ->
    daemon.Exists iptable' table chain rule = (true, None) /\
    forall r, present iptable r -> present iptable' r.

(** The iptables client returns no error, whatever it is asked. *)
Definition never_fails (T : Type) `{!daemon.IPTables T} : Prop :=
  forall (iptable : T) table chain pos rule,
    snd (daemon.Exists iptable table chain rule) = None /\
    snd (daemon.Insert iptable table chain pos rule) = None.

End Statements.

(** ** Registries used in the examples *)

Module demo.

Import ipam.

(** One IPv4 subnet [x] with an excluded address and one owner. *)
Definition regX : IPAM :=
  let r := fst (fst (AddOrUpdateSubnet NewIPAM "x" "10.0.0.0/30" ["10.0.0.1"])) in
  fst (GetRandomAddress r 7 "p1" "x").

(** [regX] and a second, dual-stack subnet [d] with no owner. *)
Definition regXD : IPAM :=
  fst (fst (AddOrUpdateSubnet regX "d" "10.0.1.0/29,fd00::/126" [])).

(** The subnet [x], once three owners hold its three free addresses. *)
Definition regFull : IPAM :=
  let r := fst (GetRandomAddress regX 7 "p2" "x") in
  fst (GetRandomAddress r 7 "p3" "x").

(** A dual-stack subnet [d] alone, with no owner. *)
Definition regD : IPAM :=
  fst (fst (AddOrUpdateSubnet NewIPAM "d" "10.0.1.0/29,fd00::/126" [])).

(** A controller that lists one IPv6 subnet. *)
Definition ctl : daemon.Controller :=
  daemon.mkController
    (daemon.mkConfiguration "10.96.0.0/12" "169.254.20.10" "node1")
    "IPv4"
    ([kubeovnv1.mkSubnet
        (kubeovnv1.mkSubnetSpec "IPv6" "fd00::/120" "distributed" true)
        (kubeovnv1.mkSubnetStatus "")],
     None).

(** A subnet [s] made for IPv4, reconfigured as dual-stack, with one owner
    that holds an address of each family. *)
Definition regV : IPAM :=
  let r := fst (fst (AddOrUpdateSubnet NewIPAM "s" "10.0.0.0/29" [])) in
  let r := fst (fst (AddOrUpdateSubnet r "s" "10.0.0.0/29,fd00::/126" [])) in
  fst (GetRandomAddress r 5 "p" "s").

(** One IPv4 subnet [n] with no owner. *)
Definition regN : IPAM :=
  fst (fst (AddOrUpdateSubnet NewIPAM "n" "10.1.0.0/24" [])).

(** A controller on [node1] that lists a centralized IPv4 subnet with its
    gateway on this node, the same on another node, and a distributed one. *)
Definition ctlNat : daemon.Controller :=
  daemon.mkController
    (daemon.mkConfiguration "10.96.0.0/12" "" "node1")
    "IPv4"
    ([kubeovnv1.mkSubnet
        (kubeovnv1.mkSubnetSpec "IPv4" "10.17.0.0/16" "centralized" true)
        (kubeovnv1.mkSubnetStatus "node1");
      kubeovnv1.mkSubnet
        (kubeovnv1.mkSubnetSpec "IPv4" "10.18.0.0/16" "centralized" true)
        (kubeovnv1.mkSubnetStatus "node2");
      kubeovnv1.mkSubnet
        (kubeovnv1.mkSubnetSpec "IPv4" "10.16.0.0/16" "distributed" true)
        (kubeovnv1.mkSubnetStatus "")],
     None).

(** The cluster seen from [node1]: a pod of the distributed subnet on this
    node, one on another node, a host-network pod, and a pod whose subnet
    the lister does not know. *)
Definition cluster : daemon.Cluster :=
  daemon.mkCluster
    ([corev1.mkPod "ovn-default" (corev1.mkPodSpec false "node1") (corev1.mkPodStatus "10.16.0.5");
      corev1.mkPod "ovn-default" (corev1.mkPodSpec false "node2") (corev1.mkPodStatus "10.16.0.6");
      corev1.mkPod "ovn-default" (corev1.mkPodSpec true "node1") (corev1.mkPodStatus "192.168.1.10");
      corev1.mkPod "gone" (corev1.mkPodSpec false "node1") (corev1.mkPodStatus "10.19.0.7")],
     None)
    (fun name =>
       if String.eqb name "ovn-default"
       then inl (kubeovnv1.mkSubnet
                   (kubeovnv1.mkSubnetSpec "IPv4" "10.16.0.0/16" "distributed" true)
                   (kubeovnv1.mkSubnetStatus ""))
       else inr (errors.New "subnet not found"))
    "node1".

(** The same cluster when the pods cannot be listed. *)
Definition clusterDown : daemon.Cluster :=
  daemon.mkCluster ([], Some (errors.New "pods not synced"))
                   (daemon.subnetsGet cluster) "node1".

(** An IP set client that keeps the members of each set by its id. *)
Definition setTable : daemon.IPSets (gmap string (list string)) :=
  {| daemon.AddOrReplaceIPSet := fun s meta members => <[ipsets.SetID meta := members]> s;
     daemon.ApplyUpdates := fun s => s |}.

(** An iptables client that keeps its rules in a list, a new rule at the
    head, and never fails. *)
Definition ruleList : daemon.IPTables (list util.IPTableRule) :=
  {| daemon.Exists := fun t table chain rule =>
       (bool_decide (util.mkIPTableRule table chain rule ∈ t), None);
     daemon.Insert := fun t table chain pos rule =>
       (util.mkIPTableRule table chain rule :: t, None) |}.

End demo.

(** ** The model on concrete inputs *)

Section Examples.

Import ipam.

(** Addresses and CIDRs, read and written. *)
Example parse4 : net.ParseIP "10.0.0.5" = Some (net.mkAddr net.V4 167772165).
Proof. reflexivity. Qed.

Example parse6 :
  net.ParseIP "fd00::5" = Some (net.mkAddr net.V6 336294682933583715844663186250927177733).
Proof. vm_compute. reflexivity. Qed.

Example parse6_upper :
  net.ParseIP "FD00::10" = net.ParseIP "fd00::10" /\ net.ParseIP "FD00::10" <> None.
Proof. split; vm_compute; [reflexivity|discriminate]. Qed.

Example parse6_dotted :
  net.ParseIP "::ffff:10.0.0.1" = Some (net.mkAddr net.V6 281470849515521).
Proof. vm_compute. reflexivity. Qed.

Example show4 : net.String_ (net.mkAddr net.V4 167772165) = "10.0.0.5".
Proof. reflexivity. Qed.

Example show6 :
  net.String_ (net.mkAddr net.V6 336294682933583715844663186250927177733)
  = "fd00:0:0:0:0:0:0:5".
Proof. vm_compute. reflexivity. Qed.

Example cidr4 :
  net.ParseCIDR "10.0.0.7/24"
  = Some (net.mkAddr net.V4 167772167, net.mkIPNet net.V4 167772160 167772415).
Proof. vm_compute. reflexivity. Qed.

Example cidr6_upper :
  net.ParseCIDR "FD00::/64" = net.ParseCIDR "fd00::/64" /\ net.ParseCIDR "FD00::/64" <> None.
Proof. split; vm_compute; [reflexivity|discriminate]. Qed.

Example bad4 : net.ParseCIDR "not-a-cidr" = None.
Proof. vm_compute. reflexivity. Qed.

(** The examples of the spec's section 8 on the modelled subnet. *)
Example static_out_of_range :
  snd (GetStaticAddress demo.regN "A" "10.0.0.5" "" "n")
  = ("10.0.0.5", "", "", Some OutOfRangeError).
Proof. vm_compute. reflexivity. Qed.

Example static_conflict :
  let r := fst (GetStaticAddress demo.regN "A" "10.1.0.7" "" "n") in
  snd (GetStaticAddress r "B" "10.1.0.7" "" "n") = ("10.1.0.7", "", "", Some ConflictError).
Proof. vm_compute. reflexivity. Qed.

Example random_idempotent :
  let r := GetRandomAddress demo.regN 3 "A" "n" in
  GetRandomAddress (fst r) 9 "A" "n" = r.
Proof. vm_compute. reflexivity. Qed.

Example release_round_trip :
  let r := fst (GetStaticAddress demo.regN "A" "10.1.0.7" "" "n") in
  (V4FreeIPList <$> Subnets r !! "n"
   = Some [mkIPRange "10.1.0.0" "10.1.0.6"; mkIPRange "10.1.0.8" "10.1.0.255"]) /\
  (V4FreeIPList <$> Subnets (ReleaseAddressByPod r "A") !! "n"
   = Some [mkIPRange "10.1.0.0" "10.1.0.255"]).
Proof. split; vm_compute; reflexivity. Qed.

Example three_owners_then_none :
  (V4PodToIP <$> Subnets demo.regFull !! "x"
   = Some (list_to_map [("p1", "10.0.0.3"); ("p2", "10.0.0.2"); ("p3", "10.0.0.0")])) /\
  snd (GetRandomAddress demo.regFull 1 "p4" "x") = ("", "", "", Some NoAvailableError).
Proof. split; vm_compute; reflexivity. Qed.

End Examples.

(** ** The text of an address reads back as the address *)

Section Codec.

Import strings net.

Lemma Split_lacks c s : lacks c s = true -> Split c s = [s].
Proof.
  induction s as [|a s IH]; simpl; [done|].
  intros [Ha Hs]%andb_prop. apply negb_true_iff in Ha. rewrite Ha, (IH Hs). done.
Qed.

Lemma Split_app c s1 s2 :
  lacks c s1 = true -> Split c (s1 ++ String c s2) = s1 :: Split c s2.
Proof.
  induction s1 as [|a s IH]; simpl.
  - intros _. by rewrite Ascii.eqb_refl.
  - intros [Ha Hs]%andb_prop. apply negb_true_iff in Ha. rewrite Ha, (IH Hs). done.
Qed.

Lemma Split_Join c l :
  l <> [] -> Forall (fun s => lacks c s = true) l -> Split c (Join c l) = l.
Proof.
  induction l as [|x t IH]; [done|]. intros _ Hl.
  apply Forall_cons in Hl as [Hx Ht]. destruct t as [|y t].
  - simpl. by apply Split_lacks.
  - change (Join c (x :: y :: t)) with (x ++ String c (Join c (y :: t))).
    rewrite Split_app by done. f_equal. by apply IH.
Qed.

Lemma lacks_app c s1 s2 : lacks c (s1 ++ s2) = lacks c s1 && lacks c s2.
Proof. induction s1 as [|a s IH]; simpl; [done|]. by rewrite IH, andb_assoc. Qed.

Lemma lacks_Join c d l :
  Ascii.eqb d c = false -> Forall (fun s => lacks c s = true) l ->
  lacks c (Join d l) = true.
Proof.
  intros Hd. induction l as [|x t IH]; [done|]. intros Hl.
  apply Forall_cons in Hl as [Hx Ht]. destruct t as [|y t]; [done|].
  change (Join d (x :: y :: t)) with (x ++ String d (Join d (y :: t))).
  rewrite lacks_app, Hx. simpl. rewrite Hd. simpl. by apply IH.
Qed.

Lemma dec_digits c d :
  (c = "." \/ c = ":")%char ->
  lacks c (DecimalString.NilEmpty.string_of_uint d) = true.
Proof. intros [-> | ->]; induction d; simpl; auto. Qed.

Lemma hex_digits c d :
  (c = "." \/ c = ":")%char ->
  lacks c (HexadecimalString.NilEmpty.string_of_uint d) = true.
Proof. intros [-> | ->]; induction d; simpl; auto. Qed.

Lemma dec_lacks c n : (c = "." \/ c = ":")%char -> lacks c (dec n) = true.
Proof.
  intros Hc. unfold dec, DecimalString.NilZero.string_of_uint.
  destruct (N.to_uint _) eqn:E; try (rewrite <- E; by apply dec_digits).
  by destruct Hc as [-> | ->].
Qed.

Lemma hex_lacks c n : (c = "." \/ c = ":")%char -> lacks c (hex n) = true.
Proof.
  intros Hc. unfold hex, HexadecimalString.NilZero.string_of_uint.
  destruct (N.to_hex_uint _) eqn:E; try (rewrite <- E; by apply hex_digits).
  by destruct Hc as [-> | ->].
Qed.

Lemma undec_dec n : 0 <= n -> undec (dec n) = Some n.
Proof.
  intros Hn. unfold undec, dec.
  pose proof (DecimalN.Unsigned.of_to (Z.to_N n)) as Hof.
  destruct (N.to_uint (Z.to_N n)) eqn:E;
    [simpl in *; f_equal; lia
    | rewrite DecimalString.NilZero.usu by done; rewrite Hof; f_equal; lia ..].
Qed.

Lemma lowers_digits d :
  lowers (HexadecimalString.NilEmpty.string_of_uint d)
  = HexadecimalString.NilEmpty.string_of_uint d.
Proof. induction d; simpl; by rewrite ?IHd. Qed.

Lemma lowers_hex n : lowers (hex n) = hex n.
Proof.
  unfold hex, HexadecimalString.NilZero.string_of_uint.
  destruct (N.to_hex_uint _) eqn:E; try (rewrite <- E; by apply lowers_digits).
  done.
Qed.

Lemma unhex_hex n : 0 <= n -> unhex (hex n) = Some n.
Proof.
  intros Hn. unfold unhex. rewrite lowers_hex. unfold hex.
  pose proof (HexadecimalN.Unsigned.of_to (Z.to_N n)) as Hof.
  destruct (N.to_hex_uint (Z.to_N n)) eqn:E;
    [simpl in *; f_equal; lia
    | rewrite HexadecimalString.NilZero.usu by done; rewrite Hof; f_equal; lia ..].
Qed.

Lemma hex_nonempty n : String.eqb (hex n) EmptyString = false.
Proof.
  unfold hex, HexadecimalString.NilZero.string_of_uint.
  destruct (N.to_hex_uint _); done.
Qed.

Lemma to_groups_length b k n : length (to_groups b k n) = k.
Proof.
  revert n. induction k as [|k IH]; intros n; simpl; [done|].
  rewrite length_app, IH. simpl. lia.
Qed.

Lemma to_groups_bound b k n :
  0 < b -> Forall (fun g => 0 <= g < b) (to_groups b k n).
Proof.
  intros Hb. revert n. induction k as [|k IH]; intros n; simpl; [constructor|].
  apply Forall_app. split; [apply IH|].
  constructor; [|constructor]. by apply Z.mod_pos_bound.
Qed.

Lemma of_groups_snoc b l x : of_groups b (l ++ [x]) = of_groups b l * b + x.
Proof. unfold of_groups. by rewrite fold_left_app. Qed.

Lemma of_to_groups b k n :
  0 < b -> 0 <= n < b ^ Z.of_nat k -> of_groups b (to_groups b k n) = n.
Proof.
  intros Hb. revert n. induction k as [|k IH]; intros n Hn.
  - simpl in *. unfold of_groups. simpl. lia.
  - simpl to_groups. rewrite of_groups_snoc, IH.
    + pose proof (Z.div_mod n b). lia.
    + rewrite Nat2Z.inj_succ, Z.pow_succ_r in Hn by lia. split.
      * apply Z.div_pos; lia.
      * apply Z.div_lt_upper_bound; lia.
Qed.

Lemma groups_of_map rd wr b gs :
  (forall g, 0 <= g -> rd (wr g) = Some g) ->
  Forall (fun g => 0 <= g < b) gs ->
  groups_of rd b (map wr gs) = Some gs.
Proof.
  intros Hrw. induction 1 as [|g gs [Hg0 Hgb] _ IH]; simpl; [done|].
  rewrite Hrw, IH by done. by apply Z.ltb_lt in Hgb as ->.
Qed.

Lemma parseIPv4_text n :
  0 <= n < 2 ^ 32 ->
  parseIPv4 (Join "."%char (map dec (to_groups 256 4 n))) = Some n.
Proof.
  intros Hn. unfold parseIPv4. rewrite Split_Join.
  - rewrite length_map, to_groups_length. simpl Nat.eqb. cbv iota.
    rewrite (groups_of_map undec dec), of_to_groups; try done.
    + apply undec_dec.
    + by apply to_groups_bound.
  - done.
  - apply Forall_map, Forall_forall. intros g _. apply dec_lacks. by left.
Qed.

Lemma expand6_full l :
  Forall (fun s => String.eqb s EmptyString = false) l -> expand6 l = l.
Proof.
  intros Hl. unfold expand6.
  replace (forallb _ l) with true; [done|].
  symmetry. apply forallb_forall. intros x Hx.
  rewrite Forall_forall in Hl. rewrite Hl; [done|]. by apply list_elem_of_In.
Qed.

Lemma tail4_hex (gs : list Z) : tail4 (map hex gs) = map hex gs.
Proof.
  induction gs as [|g gs IH]; [done|]. simpl. rewrite IH.
  destruct (map hex gs) eqn:E; [|done].
  unfold parseIPv4. rewrite Split_lacks; [done|]. apply hex_lacks. by left.
Qed.

Lemma parseIPv6_text n :
  0 <= n < 2 ^ 128 ->
  parseIPv6 (Join ":"%char (map hex (to_groups 65536 8 n))) = Some n.
Proof.
  intros Hn. unfold parseIPv6. rewrite Split_Join.
  - rewrite tail4_hex, expand6_full.
    + rewrite length_map, to_groups_length. simpl Nat.eqb. cbv iota.
      rewrite (groups_of_map unhex hex), of_to_groups; try done.
      * apply unhex_hex.
      * by apply to_groups_bound.
    + apply Forall_map, Forall_forall. intros g _. apply hex_nonempty.
  - done.
  - apply Forall_map, Forall_forall. intros g _. apply hex_lacks. by right.
Qed.

Lemma parseIPv4_text6 n :
  parseIPv4 (Join ":"%char (map hex (to_groups 65536 8 n))) = None.
Proof.
  unfold parseIPv4. rewrite Split_lacks; [done|].
  apply lacks_Join; [done|].
  apply Forall_map, Forall_forall. intros g _. apply hex_lacks. by left.
Qed.

(** Whatever [ParseIP] reads from the text of [a] is [a] itself. *)
Lemma ParseIP_String a a' : ParseIP (String_ a) = Some a' -> a' = a.
Proof.
  unfold String_. destruct (in_range a) eqn:Hr; [|by vm_compute].
  destruct a as [f n]. unfold in_range in Hr. simpl in Hr.
  apply andb_prop in Hr as [H0%Z.leb_le H1%Z.ltb_lt].
  unfold ParseIP. destruct f; simpl fam; simpl num; cbv iota.
  - rewrite parseIPv4_text by done. congruence.
  - rewrite parseIPv4_text6, parseIPv6_text by done. congruence.
Qed.

End Codec.

(** ** The registry: unknown names, deletion, invalid CIDRs *)

Section Registry.

Import ipam.

(** C8 (DeleteSubnet): after [DeleteSubnet] the name is absent from the
    registry and every other name maps to the subnet it mapped to before,
    free lists, reserved lists and bookkeeping maps included; the function
    is total and has no error result. *)
Theorem DeleteSubnet_removes_only (ipam : IPAM) (subnetName other : string) :
  Subnets (DeleteSubnet ipam subnetName) !! subnetName = None /\
  (other <> subnetName ->
   Subnets (DeleteSubnet ipam subnetName) !! other = Subnets ipam !! other).
Proof.
  unfold DeleteSubnet. simpl. split.
  - apply lookup_delete_eq.
  - intros Hne. by apply lookup_delete_ne.
Qed.

(** C10 (unknown subnet): for a name the registry does not know, both
    [GetRandomAddress] and [GetStaticAddress] answer three empty strings and
    the error, and the registry they leave is the one they were given. *)
Theorem unknown_subnet_allocates_nothing (ipam : IPAM) (seed : nat)
  (podName ip mac subnetName : string) :
  Subnets ipam !! subnetName = None ->
  GetRandomAddress ipam seed podName subnetName
    = (ipam, ("", "", "", Some NoAvailableError)) /\
  GetStaticAddress ipam podName ip mac subnetName
    = (ipam, ("", "", "", Some NoAvailableError)).
Proof.
  intros Hnone. unfold GetRandomAddress, GetStaticAddress. by rewrite Hnone.
Qed.

Lemma parseCidrs_protocol cidrStr : fst (parseCidrs cidrStr) = util.CheckProtocol cidrStr.
Proof.
  unfold parseCidrs. destruct (String.eqb _ _); [done|].
  by destruct (net.ParseCIDR cidrStr).
Qed.

Lemma parseCidrs_error cidrStr :
  snd (snd (parseCidrs cidrStr)) = None <-> cidrInvalid cidrStr = false.
Proof.
  unfold parseCidrs, cidrInvalid. destruct (String.eqb _ _); simpl.
  - by destruct (util.CheckDualCidrs cidrStr) as [[v4 v6] [e|]].
  - by destruct (net.ParseCIDR cidrStr).
Qed.

(** C3 (invalid CIDR): when the CIDR text does not parse (the pair of a
    dual-stack text, or the one CIDR of a single-family text),
    [AddOrUpdateSubnet] returns [InvalidCIDRError], writes nothing to the
    log and leaves the registry as it was, so a subnet already registered
    under the name keeps all its lists and maps. *)
Theorem invalid_cidr_rejected (ipam : IPAM) (name cidrStr : string)
  (excludeIps : list string) :
  cidrInvalid cidrStr = true ->
  AddOrUpdateSubnet ipam name cidrStr excludeIps = (ipam, [], Some InvalidCIDRError).
Proof.
  intros Herr. unfold AddOrUpdateSubnet.
  destruct (snd (snd (parseCidrs cidrStr))) as [e|] eqn:He.
  - destruct (parseCidrs cidrStr) as [protocol [[v4 v6] err]]. simpl in He. by subst err.
  - apply parseCidrs_error in He. congruence.
Qed.

(** C6 (NoAvailableError): both allocation calls fail with
    [NoAvailableError] for a name the registry does not know, and a random
    allocation for an owner that holds nothing fails with the same error
    when the free list of a family of the subnet is empty. *)
Theorem NoAvailableError_unknown_or_exhausted (ipam : IPAM) (seed : nat)
  (podName ip mac subnetName : string) :
  (Subnets ipam !! subnetName = None ->
   snd (snd (GetRandomAddress ipam seed podName subnetName)) = Some NoAvailableError /\
   snd (snd (GetStaticAddress ipam podName ip mac subnetName)) = Some NoAvailableError) /\
  (forall (s : Subnet) (f : net.family),
     Subnets ipam !! subnetName = Some s ->
     V4PodToIP s !! podName = None -> V6PodToIP s !! podName = None ->
     supports f s = true -> FreeIPList f s = [] ->
     snd (snd (GetRandomAddress ipam seed podName subnetName)) = Some NoAvailableError).
Proof.
  split.
  - intros Hnone. unfold GetRandomAddress, GetStaticAddress. by rewrite Hnone.
  - intros s f Hs H4 H6 Hsup Hfree. unfold GetRandomAddress. rewrite Hs.
    unfold subnet.GetRandomAddress. rewrite H4, H6.
    destruct f; simpl in Hfree.
    + unfold subnet.allocateFamily at 1. rewrite Hsup. simpl FreeIPList.
      rewrite Hfree. done.
    + destruct (subnet.allocateFamily seed net.V4 s) as [[v4IP s1]|] eqn:E4; [|done].
      assert (supports net.V6 s1 = true /\ V6FreeIPList s1 = []) as [Hsup1 Hfree1].
      { unfold subnet.allocateFamily in E4. destruct (supports net.V4 s).
        - destruct (allocateAny _ _) as [[ip' free']|]; [|done].
          injection E4 as _ <-. done.
        - injection E4 as _ <-. done. }
      unfold subnet.allocateFamily. rewrite Hsup1. simpl FreeIPList.
      rewrite Hfree1. done.
Qed.

(** [DeleteSubnet_removes_only] at [demo.regXD]: deleting [d] leaves [x]. *)
Lemma DeleteSubnet_removes_only_witness :
  Subnets (DeleteSubnet demo.regXD "d") !! "d" = None /\
  Subnets (DeleteSubnet demo.regXD "d") !! "x" = Subnets demo.regXD !! "x".
Proof.
  destruct (DeleteSubnet_removes_only demo.regXD "d" "x") as [Hgone Hkept].
  split; [exact Hgone|]. apply Hkept. discriminate.
Defined.

(** [unknown_subnet_allocates_nothing] at [demo.regX], which has no subnet
    [nosuch]. *)
Lemma unknown_subnet_allocates_nothing_witness :
  GetRandomAddress demo.regX 3 "p2" "nosuch"
    = (demo.regX, ("", "", "", Some NoAvailableError)) /\
  GetStaticAddress demo.regX "p2" "10.0.0.2" "" "nosuch"
    = (demo.regX, ("", "", "", Some NoAvailableError)).
Proof.
  apply (unknown_subnet_allocates_nothing demo.regX 3 "p2" "10.0.0.2" "" "nosuch").
  vm_compute. reflexivity.
Defined.

(** [invalid_cidr_rejected] at [demo.regX] and a text that is no CIDR: the
    subnet [x] and its owner stay as they are. *)
Lemma invalid_cidr_rejected_witness :
  AddOrUpdateSubnet demo.regX "x" "not-a-cidr" []
    = (demo.regX, [], Some InvalidCIDRError).
Proof.
  apply (invalid_cidr_rejected demo.regX "x" "not-a-cidr" []).
  vm_compute. reflexivity.
Defined.

(** [NoAvailableError_unknown_or_exhausted] at an unknown name and at
    [demo.regFull], whose IPv4 free list is empty. *)
Lemma NoAvailableError_witness :
  snd (snd (GetRandomAddress demo.regX 3 "p2" "nosuch")) = Some NoAvailableError /\
  snd (snd (GetRandomAddress demo.regFull 3 "p4" "x")) = Some NoAvailableError.
Proof.
  split.
  - apply (NoAvailableError_unknown_or_exhausted demo.regX 3 "p2" "" "" "nosuch").
    vm_compute. reflexivity.
  - destruct (Subnets demo.regFull !! "x") as [s|] eqn:E; [|vm_compute in E; discriminate].
    apply (proj2 (NoAvailableError_unknown_or_exhausted demo.regFull 3 "p4" "" "" "x")
             s net.V4 E);
      vm_compute in E; injection E as <-; vm_compute; reflexivity.
Defined.

End Registry.

(** ** The queries: [GetPodAddress] and [getSubnetsCIDR] *)

Section Queries.

Import ipam.

Lemma appendPodAddress_app podName addresses subnet :
  appendPodAddress podName addresses subnet
  = (addresses ++ appendPodAddress podName [] subnet)%list.
Proof.
  unfold appendPodAddress.
  destruct (subnet.GetPodAddress subnet podName) as [[[v4IP v6IP] mac] protocol].
  destruct (String.eqb protocol _); [done|].
  destruct (String.eqb protocol _); [done|]. by rewrite <- app_assoc.
Qed.

Lemma foldl_appendPodAddress podName (l : list (string * Subnet)) acc :
  foldl (fun addresses '(_, subnet) => appendPodAddress podName addresses subnet) acc l
  = (acc ++ flat_map (fun '(_, subnet) => appendPodAddress podName [] subnet) l)%list.
Proof.
  revert acc. induction l as [|[n subnet] l IH]; intros acc; simpl.
  - by rewrite app_nil_r.
  - rewrite IH, (appendPodAddress_app podName acc). by rewrite <- app_assoc.
Qed.

Lemma GetPodAddress_flat ipam podName :
  GetPodAddress ipam podName
  = flat_map (fun '(_, subnet) => appendPodAddress podName [] subnet)
             (map_to_list (Subnets ipam)).
Proof. unfold GetPodAddress. by rewrite foldl_appendPodAddress. Qed.

Lemma appendPodAddress_entries podName subnet :
  length (appendPodAddress podName [] subnet) = entriesFor podName subnet /\
  exists a, In a (appendPodAddress podName [] subnet) /\ Subnet_ a = subnet.
Proof.
  unfold appendPodAddress, entriesFor.
  destruct (subnet.GetPodAddress subnet podName) as [[[v4IP v6IP] mac] protocol].
  simpl snd.
  destruct (String.eqb protocol kubeovnv1.ProtocolIPv4);
    [|destruct (String.eqb protocol kubeovnv1.ProtocolIPv6)];
    (split; [done|]); eexists; (split; [left; reflexivity|done]).
Qed.

Lemma appendPodAddress_subnetEntries podName subnet :
  appendPodAddress podName [] subnet = subnetEntries podName subnet.
Proof.
  unfold appendPodAddress, subnetEntries.
  destruct (subnet.GetPodAddress subnet podName) as [[[v4IP v6IP] mac] protocol].
  destruct (String.eqb protocol kubeovnv1.ProtocolIPv4); [done|].
  by destruct (String.eqb protocol kubeovnv1.ProtocolIPv6).
Qed.

(** C5, as the code has it: [GetPodAddress] visits every subnet of the
    registry and every subnet adds entries, whether or not the owner holds
    an address in it.  The result is, subnet after subnet, the entries of
    each subnet and nothing else: for a subnet that answers protocol IPv4
    one entry with its IPv4 address, for protocol IPv6 one entry with its
    IPv6 address, for any other protocol two entries, the IPv4 one first;
    every entry carries the subnet and the MAC it answers. *)
Theorem GetPodAddress_every_subnet (ipam : IPAM) (podName : string) :
  GetPodAddress ipam podName
  = concat (map (fun '(_, subnet) => subnetEntries podName subnet)
                (map_to_list (Subnets ipam))) /\
  (forall name subnet, Subnets ipam !! name = Some subnet ->
     (forall a, In a (subnetEntries podName subnet) -> In a (GetPodAddress ipam podName)) /\
     length (subnetEntries podName subnet) = entriesFor podName subnet /\
     exists a, In a (GetPodAddress ipam podName) /\ Subnet_ a = subnet) /\
  length (GetPodAddress ipam podName)
  = sum_list (map (fun '(_, subnet) => entriesFor podName subnet)
                  (map_to_list (Subnets ipam))).
Proof.
  rewrite GetPodAddress_flat. split; [|split].
  - rewrite flat_map_concat_map. reflexivity.
  - intros name subnet Hs. apply elem_of_map_to_list, list_elem_of_In in Hs.
    destruct (appendPodAddress_entries podName subnet) as [Hlen [a [Ha Hsub]]].
    rewrite appendPodAddress_subnetEntries in Hlen, Ha. repeat split.
    + intros b Hb. apply in_flat_map. exists (name, subnet). split; [done|].
      by rewrite appendPodAddress_subnetEntries.
    + done.
    + exists a. split; [|done]. apply in_flat_map. exists (name, subnet).
      split; [done|]. by rewrite appendPodAddress_subnetEntries.
  - induction (map_to_list (Subnets ipam)) as [|[n subnet] l IH]; simpl; [done|].
    rewrite length_app, IH.
    by destruct (appendPodAddress_entries podName subnet) as [-> _].
Qed.

(** [GetPodAddress_every_subnet] at [demo.regD] and an owner that holds
    nothing. *)
Lemma GetPodAddress_every_subnet_witness :
  exists a, In a (GetPodAddress demo.regD "nobody") /\
            Subnets demo.regD !! "d" = Some (Subnet_ a).
Proof.
  destruct (Subnets demo.regD !! "d") as [s|] eqn:E; [|vm_compute in E; discriminate].
  destruct (proj1 (proj2 (GetPodAddress_every_subnet demo.regD "nobody")) "d" s E)
    as (_ & _ & a & Ha & Hs).
  exists a. split; [exact Ha|]. by rewrite Hs.
Defined.

(** C5, as the spec has it, fails: the one subnet of [demo.regD] has no
    owner at all, and [GetPodAddress] still returns two entries for the
    owner [nobody], both with the empty address. *)
Lemma GetPodAddress_entry_without_address :
  map_to_list ((fun s => (V4PodToIP s, V6PodToIP s)) <$> Subnets demo.regD)
    = [("d", (∅, ∅))] /\
  map (fun a => (Ip a, Mac a)) (GetPodAddress demo.regD "nobody") = [("", ""); ("", "")].
Proof. split; vm_compute; reflexivity. Qed.

Lemma foldl_matching protocol (subnets : list kubeovnv1.Subnet) (ret : list string) :
  foldl (fun ret subnet =>
           if String.eqb (kubeovnv1.Protocol (kubeovnv1.Spec subnet)) protocol
           then (ret ++ [kubeovnv1.CIDRBlock (kubeovnv1.Spec subnet)])%list
           else ret) ret subnets
  = (ret ++ map (fun subnet => kubeovnv1.CIDRBlock (kubeovnv1.Spec subnet))
              (List.filter
                 (fun subnet => String.eqb (kubeovnv1.Protocol (kubeovnv1.Spec subnet)) protocol)
                 subnets))%list.
Proof.
  revert ret. induction subnets as [|x l IH]; intros ret; simpl.
  - by rewrite app_nil_r.
  - rewrite IH. destruct (String.eqb _ protocol); simpl; [|done].
    by rewrite <- app_assoc.
Qed.

(** C7, as the code has it: when the subnets can be listed,
    [getSubnetsCIDR] returns the service cluster IP range, then the
    node-local DNS address if one is configured and parses, then the CIDR
    blocks of the listed subnets whose protocol is the requested one, in
    the order listed, and no error; when listing fails it returns the
    lister's error and no list.  The function only reads the controller. *)
Theorem getSubnetsCIDR_contents (c : daemon.Controller) (protocol : string)
  (subnets : list kubeovnv1.Subnet) (err : option error) :
  daemon.subnetsLister c = (subnets, err) ->
  daemon.getSubnetsCIDR c protocol =
    match err with
    | None =>
        (Some ([daemon.ServiceClusterIPRange (daemon.config c)] ++ dnsEntry c
               ++ map (fun subnet => kubeovnv1.CIDRBlock (kubeovnv1.Spec subnet))
                    (List.filter
                       (fun subnet =>
                          String.eqb (kubeovnv1.Protocol (kubeovnv1.Spec subnet)) protocol)
                       subnets))%list,
         None)
    | Some e => (None, Some e)
    end.
Proof.
  intros Hlist. unfold daemon.getSubnetsCIDR, dnsEntry. rewrite Hlist.
  destruct err as [e|]; [done|].
  rewrite foldl_matching. f_equal. f_equal.
  destruct (negb _ && _); simpl; done.
Qed.

(** [getSubnetsCIDR_contents] at [demo.ctl] and the protocol of its one
    subnet. *)
Lemma getSubnetsCIDR_contents_witness :
  daemon.getSubnetsCIDR demo.ctl "IPv6"
  = (Some ["10.96.0.0/12"; "169.254.20.10"; "fd00::/120"], None).
Proof.
  apply (getSubnetsCIDR_contents demo.ctl "IPv6" (fst (daemon.subnetsLister demo.ctl)) None).
  reflexivity.
Defined.

(** C7, as the spec has it, fails: the controller [demo.ctl] lists no IPv4
    subnet, and the query for IPv4 still returns two entries, the service
    cluster IP range and the node-local DNS address. *)
Lemma getSubnetsCIDR_more_than_subnets :
  List.filter (fun subnet => String.eqb (kubeovnv1.Protocol (kubeovnv1.Spec subnet)) "IPv4")
              (fst (daemon.subnetsLister demo.ctl)) = [] /\
  daemon.getSubnetsCIDR demo.ctl "IPv4" = (Some ["10.96.0.0/12"; "169.254.20.10"], None).
Proof. split; vm_compute; reflexivity. Qed.

End Queries.

(** ** Static allocation of a dual-stack pair *)

Section DualStatic.

Import ipam.

(** In the dual-stack branch the error returned is the one of the second,
    IPv6, allocation; what the first allocation returned as error is read
    nowhere. *)
Lemma GetStaticAddress_dual_error ipam podName ip mac subnetName s :
  Subnets ipam !! subnetName = Some s ->
  util.CheckProtocol ip = kubeovnv1.ProtocolDual ->
  let ips := strings.Split ","%char ip in
  let r4 := subnet.GetStaticAddress s podName (nth 0 ips "") mac false in
  let r6 := subnet.GetStaticAddress (fst r4) podName (nth 1 ips "") (snd (fst (snd r4))) false in
  snd (snd (GetStaticAddress ipam podName ip mac subnetName)) = snd (snd r6).
Proof.
  intros Hs Hdual. unfold GetStaticAddress. rewrite Hs, Hdual. simpl.
  destruct (subnet.GetStaticAddress s podName _ mac false) as [s1 [[v4 mac1] e1]].
  simpl. by destruct (subnet.GetStaticAddress s1 podName _ mac1 false) as [s2 [[v6 mac2] e2]].
Qed.

(** C2 at a failing input: in the dual-stack subnet [d] (10.0.1.0/29 and
    fd00::/126) the IPv4 address 10.1.0.5 is out of range, so its
    allocation fails with [OutOfRangeError]; the registry's
    [GetStaticAddress] for the pair 10.1.0.5,fd00::2 nevertheless returns
    no error, and the owner is left with the IPv6 address alone. *)
Theorem GetStaticAddress_drops_v4_error :
  (fun s => snd (snd (subnet.GetStaticAddress s "p" "10.1.0.5" "" false)))
    <$> Subnets demo.regD !! "d" = Some (Some OutOfRangeError) /\
  snd (GetStaticAddress demo.regD "p" "10.1.0.5,fd00::2" "" "d")
    = ("10.1.0.5", "fd00::2", "00:00:00:00:00:00", None) /\
  map (fun a => (Ip a, Mac a))
      (GetPodAddress (fst (GetStaticAddress demo.regD "p" "10.1.0.5,fd00::2" "" "d")) "p")
    = [("", "00:00:00:00:00:00"); ("fd00::2", "00:00:00:00:00:00")].
Proof.
  repeat split; vm_compute; reflexivity.
Qed.

End DualStatic.

(** ** Interval lists: what subtraction leaves *)

Section Intervals.

Import ipam.

Lemma bounds_ends s t f x y :
  bounds (mkIPRange s t) = Some (f, x, y) ->
  net.ParseIP s = Some (net.mkAddr f x) /\ net.ParseIP t = Some (net.mkAddr f y).
Proof.
  unfold bounds. simpl.
  destruct (net.ParseIP s) as [[fs ns]|]; [|done].
  destruct (net.ParseIP t) as [[ft nt]|]; [|done]. simpl.
  case_bool_decide; [|done]. intros [= <- <- <-]. by subst.
Qed.

Lemma bounds_of_ends s t f x y :
  net.ParseIP s = Some (net.mkAddr f x) -> net.ParseIP t = Some (net.mkAddr f y) ->
  bounds (mkIPRange s t) = Some (f, x, y).
Proof.
  intros Hs Ht. unfold bounds. simpl. rewrite Hs, Ht. simpl.
  by rewrite bool_decide_eq_true_2.
Qed.

Lemma covers_spec r a :
  covers r a = true <->
  exists s e, bounds r = Some (net.fam a, s, e) /\ s <= net.num a <= e.
Proof.
  unfold covers. destruct (bounds r) as [[[f s] e]|]; split.
  - intros [[Hf Hs%Z.leb_le]%andb_prop He%Z.leb_le]%andb_prop.
    apply bool_decide_eq_true in Hf as ->. exists s, e. split; [done|lia].
  - intros (s' & e' & [= -> <- <-] & Hs & He).
    rewrite bool_decide_eq_true_2 by done. simpl.
    apply andb_true_intro. split; by apply Z.leb_le.
  - done.
  - by intros (s' & e' & Hb & _).
Qed.

(** An interval end that was computed reads back as the address it was made
    from, if it reads at all. *)
Lemma bounds_left_piece r f s e x g p q :
  bounds r = Some (f, s, e) ->
  bounds (mkIPRange (Start r) (net.String_ (net.mkAddr f x))) = Some (g, p, q) ->
  g = f /\ p = s /\ q = x.
Proof.
  destruct r as [rs re]. intros [Hs _]%bounds_ends [Hp Hq]%bounds_ends. simpl in *.
  apply ParseIP_String in Hq. repeat split; congruence.
Qed.

Lemma bounds_right_piece r f s e x g p q :
  bounds r = Some (f, s, e) ->
  bounds (mkIPRange (net.String_ (net.mkAddr f x)) (End_ r)) = Some (g, p, q) ->
  g = f /\ p = x /\ q = e.
Proof.
  destruct r as [rs re]. intros [_ He]%bounds_ends [Hp Hq]%bounds_ends. simpl in *.
  apply ParseIP_String in Hp. repeat split; congruence.
Qed.

(** A piece of [r] without [o] covers only addresses of [r] that [o] does
    not cover. *)
Lemma covers_rangeMinus r o p a :
  In p (rangeMinus r o) -> covers p a = true ->
  covers r a = true /\ covers o a = false.
Proof.
  unfold rangeMinus. intros Hin Hp.
  destruct (bounds r) as [[[f s] e]|] eqn:Br.
  2: { destruct Hin as [<-|[]]. unfold covers in Hp. by rewrite Br in Hp. }
  destruct (bounds o) as [[[g x] y]|] eqn:Bo.
  2: { destruct Hin as [<-|[]]. split; [done|]. unfold covers. by rewrite Bo. }
  destruct (bool_decide (f = g) && (x <=? y)%Z && (x <=? e)%Z && (s <=? y)%Z) eqn:Hc.
  - apply andb_prop in Hc as [[[Hfg Hxy%Z.leb_le]%andb_prop Hxe%Z.leb_le]%andb_prop Hsy%Z.leb_le].
    apply bool_decide_eq_true in Hfg as <-.
    apply covers_spec in Hp as (ps & pe & Hb & Hps & Hpe).
    apply in_app_or in Hin as [Hin|Hin].
    + destruct (Z.ltb_spec s x) as [Hsx|]; [|done]. destruct Hin as [<-|[]].
      apply (bounds_left_piece r f s e) in Hb as (Hf & -> & ->); [|done].
      split.
      * apply covers_spec. exists s, e. rewrite Hf, Br. split; [done|lia].
      * apply not_true_iff_false. intros (s' & e' & Hb' & ? & ?)%covers_spec.
        rewrite Bo in Hb'. injection Hb' as _ <- <-. lia.
    + destruct (Z.ltb_spec y e) as [Hye|]; [|done]. destruct Hin as [<-|[]].
      apply (bounds_right_piece r f s e) in Hb as (Hf & -> & ->); [|done].
      split.
      * apply covers_spec. exists s, e. rewrite Hf, Br. split; [done|lia].
      * apply not_true_iff_false. intros (s' & e' & Hb' & ? & ?)%covers_spec.
        rewrite Bo in Hb'. injection Hb' as _ <- <-. lia.
  - destruct Hin as [<-|[]]. split; [done|].
    apply not_true_iff_false. intros (s' & e' & Hb' & ? & ?)%covers_spec.
    apply covers_spec in Hp as (s'' & e'' & Hb'' & ? & ?).
    rewrite Bo in Hb'. rewrite Br in Hb''.
    injection Hb' as -> <- <-. injection Hb'' as -> <- <-.
    apply andb_false_iff in Hc as [Hc|Hc%Z.leb_gt]; [|lia].
    apply andb_false_iff in Hc as [Hc|Hc%Z.leb_gt]; [|lia].
    apply andb_false_iff in Hc as [Hc|Hc%Z.leb_gt]; [|lia].
    by apply bool_decide_eq_false in Hc.
Qed.

Lemma lcovers_spec l a : lcovers l a = true <-> exists r, In r l /\ covers r a = true.
Proof. apply existsb_exists. Qed.

Lemma lcovers_subtract l others a :
  lcovers (subtract l others) a = true ->
  lcovers l a = true /\ forall o, In o others -> covers o a = false.
Proof.
  unfold subtract. revert l. induction others as [|o others IH]; intros l; simpl.
  - intros Hl. split; [done|]. by intros o [].
  - intros [Hl Hothers]%IH.
    apply lcovers_spec in Hl as (p & Hp & Hpa).
    apply in_flat_map in Hp as (r & Hr & Hp).
    destruct (covers_rangeMinus r o p a Hp Hpa) as [Hra Hoa].
    split.
    + apply lcovers_spec. by exists r.
    + intros o' [<-|Ho']; [done|]. by apply Hothers.
Qed.

Lemma covers_single ip a : net.ParseIP ip = Some a -> covers (mkIPRange ip ip) a = true.
Proof.
  intros Hip. apply covers_spec. exists (net.num a), (net.num a).
  split; [|lia]. destruct a as [f n]. by apply bounds_of_ends.
Qed.

(** An address that was subtracted is not in what is left. *)
Lemma Contains_subtract l others ip :
  In (mkIPRange ip ip) others -> Contains (subtract l others) ip = false.
Proof.
  intros Hin. unfold Contains.
  destruct (net.ParseIP ip) as [a|] eqn:Hip; [|done].
  apply not_true_iff_false. intros [_ Hno]%lcovers_subtract.
  specialize (Hno _ Hin). by rewrite covers_single in Hno.
Qed.

End Intervals.

(** ** Reconfiguration of a subnet *)

Section Reconfigure.

Import ipam.

Lemma kept_refl s : kept s s.
Proof. by constructor. Qed.

Lemma kept_trans s1 s2 s3 : kept s1 s2 -> kept s2 s3 -> kept s1 s3.
Proof.
  intros [] []. constructor; try congruence; etrans; eassumption.
Qed.

Lemma insert_same_subseteq `{Countable K} {V} (m : gmap K V) k v :
  (m !! k = None \/ m !! k = Some v) -> m ⊆ <[k := v]> m.
Proof.
  intros [Hn|Hs]; [by apply insert_subseteq|]. by rewrite insert_id.
Qed.

Lemma heldByOther_false f s podName ip :
  subnet.heldByOther f s podName ip = false ->
  IPToPod f s !! ip = None \/ IPToPod f s !! ip = Some podName.
Proof.
  unfold subnet.heldByOther. destruct (IPToPod f s !! ip) as [other|]; [|by left].
  intros Hneg%negb_false_iff%String.eqb_eq. right. by subst.
Qed.

Lemma chooseMac_recorded s podName :
  PodToMac s !! podName = None \/
  PodToMac s !! podName
  = Some (subnet.chooseMac s podName (default "" (PodToMac s !! podName))).
Proof.
  unfold subnet.chooseMac. destruct (PodToMac s !! podName) as [m|] eqn:Hm; [right|by left].
  simpl. by destruct (String.eqb m "").
Qed.

(** A forced allocation of the address an owner is recorded with keeps the
    subnet, whether it succeeds or fails. *)
Lemma GetStaticAddress_force_kept s f podName ip :
  PodToIP f s !! podName = Some ip ->
  familyOf f ip = true ->
  kept s (fst (subnet.GetStaticAddress s podName ip
                 (default "" (PodToMac s !! podName)) true)).
Proof.
  intros Hrec Hfam. unfold subnet.GetStaticAddress, familyOf in *.
  destruct (net.ParseIP ip) as [[fa n]|]; [|apply kept_refl].
  apply bool_decide_eq_true in Hfam. simpl in Hfam. subst fa. simpl net.fam.
  destruct (CIDR f s); [|apply kept_refl].
  destruct (negb _); [apply kept_refl|].
  destruct (subnet.heldByOther f s podName ip) eqn:Hheld; [apply kept_refl|].
  apply heldByOther_false in Hheld. pose proof (chooseMac_recorded s podName) as Hmac.
  simpl fst. destruct f; simpl in *; constructor; simpl; try done;
    try (by apply insert_id); by apply insert_same_subseteq.
Qed.

Lemma revalidate_cons name cidrStr podName ip entries s log :
  exists log',
    revalidate name cidrStr ((podName, ip) :: entries) (s, log)
    = revalidate name cidrStr entries
        (fst (subnet.GetStaticAddress s podName ip (default "" (PodToMac s !! podName)) true),
         log')
    /\ (log' = log \/ log' = (log ++ [notInNewCidr podName name cidrStr])%list).
Proof.
  unfold revalidate. simpl.
  destruct (subnet.GetStaticAddress s podName ip _ true) as [s1 [[ip1 mac1] [e|]]]; simpl;
    eexists; (split; [reflexivity|]); auto.
Qed.

(** The loop keeps the subnet, and every line it logs is about an owner it
    ranged over. *)
Lemma revalidate_kept name cidrStr f entries s log :
  (forall podName ip, In (podName, ip) entries ->
     PodToIP f s !! podName = Some ip /\ familyOf f ip = true) ->
  kept s (fst (revalidate name cidrStr entries (s, log))) /\
  (forall line, In line (snd (revalidate name cidrStr entries (s, log))) ->
     In line log \/
     exists podName ip, In (podName, ip) entries /\ line = notInNewCidr podName name cidrStr).
Proof.
  revert s log. induction entries as [|[podName ip] entries IH]; intros s log Hrec.
  - split; [apply kept_refl|]. intros line Hline. by left.
  - destruct (revalidate_cons name cidrStr podName ip entries s log) as (log' & -> & Hlog').
    destruct (Hrec podName ip (or_introl eq_refl)) as [Hp Hf].
    pose proof (GetStaticAddress_force_kept s f podName ip Hp Hf) as Hk.
    set (s1 := fst (subnet.GetStaticAddress s podName ip _ true)) in *.
    destruct (IH s1 log') as [Hk1 Hl1].
    { intros q iq Hq. destruct (Hrec q iq (or_intror Hq)) as [Hq1 Hq2].
      split; [|done]. destruct Hk. by destruct f; simpl in *; congruence. }
    split; [by eapply kept_trans|].
    intros line Hline. destruct (Hl1 line Hline) as [Hin|(q & iq & Hq & ->)].
    + destruct Hlog' as [->| ->]; [by left|].
      apply in_app_or in Hin as [Hin|[<-|[]]]; [by left|].
      right. exists podName, ip. split; [by left|done].
    + right. exists q, iq. split; [by right|done].
Qed.

Lemma families_ok_entries f s podName ip :
  families_ok s = true ->
  In (podName, ip) (map_to_list (PodToIP f s)) ->
  PodToIP f s !! podName = Some ip /\ familyOf f ip = true.
Proof.
  intros [H4 H6]%andb_prop Hin. split.
  - by apply elem_of_map_to_list, list_elem_of_In.
  - destruct f; simpl in Hin.
    + rewrite forallb_forall in H4. apply (H4 _ Hin).
    + rewrite forallb_forall in H6. apply (H6 _ Hin).
Qed.

(** [joinFreeWithReserve] writes the free lists and nothing else. *)
Lemma joinFreeWithReserve_frame s :
  let s' := subnet.joinFreeWithReserve s in
  Protocol s' = Protocol s /\ V4CIDR s' = V4CIDR s /\ V6CIDR s' = V6CIDR s /\
  V4ReservedIPList s' = V4ReservedIPList s /\ V6ReservedIPList s' = V6ReservedIPList s /\
  V4PodToIP s' = V4PodToIP s /\ V6PodToIP s' = V6PodToIP s /\
  V4IPToPod s' = V4IPToPod s /\ V6IPToPod s' = V6IPToPod s /\
  PodToMac s' = PodToMac s /\ MacToPod s' = MacToPod s.
Proof.
  unfold subnet.joinFreeWithReserve.
  destruct (supports net.V4 s) eqn:H4; simpl;
    match goal with |- context [supports net.V6 ?x] => destruct (supports net.V6 x) end;
    simpl; repeat split.
Qed.

(** After [joinFreeWithReserve] the free list of every family of the subnet
    holds no address recorded for an owner. *)
Lemma joinFreeWithReserve_clear s f podName ip :
  supports f s = true -> PodToIP f s !! podName = Some ip ->
  Contains (FreeIPList f (subnet.joinFreeWithReserve s)) ip = false.
Proof.
  intros Hsup Hrec.
  assert (In (mkIPRange ip ip) (subnet.assigned f s)) as Hin.
  { unfold subnet.assigned. apply in_map_iff. exists (podName, ip). split; [done|].
    by apply list_elem_of_In, elem_of_map_to_list. }
  unfold subnet.joinFreeWithReserve. destruct f.
  - rewrite Hsup.
    match goal with |- context [supports net.V6 ?x] => destruct (supports net.V6 x) end;
      simpl; by apply Contains_subtract.
  - match goal with |- context [supports net.V6 ?x] =>
      replace (supports net.V6 x) with true
    end.
    + simpl. apply Contains_subtract.
      by destruct (supports net.V4 s).
    + rewrite <- Hsup. unfold supports.
      by destruct (String.eqb (Protocol s) kubeovnv1.ProtocolDual || String.eqb (Protocol s) kubeovnv1.ProtocolIPv4).
Qed.

Lemma families_ok_ext s s' :
  V4PodToIP s' = V4PodToIP s -> V6PodToIP s' = V6PodToIP s ->
  families_ok s' = families_ok s.
Proof. intros H4 H6. unfold families_ok. by rewrite H4, H6. Qed.

(** One family's block of the reconfiguration, from the call of
    [joinFreeWithReserve] to the end of the loop; [s0] is the subnet the
    reconfiguration started from. *)
Lemma rebuild_block name cidrStr f s0 s log :
  owners_kept s0 s ->
  families_ok s0 = true ->
  lines_of_owners name cidrStr s0 log ->
  let r := revalidate name cidrStr
             (map_to_list (PodToIP f (subnet.joinFreeWithReserve s)))
             (subnet.joinFreeWithReserve s, log) in
  owners_kept s0 (fst r) /\ Protocol (fst r) = Protocol s /\
  free_clear_of s0 (fst r) /\ lines_of_owners name cidrStr s0 (snd r).
Proof.
  intros (Hs4 & Hs6 & Hsi4 & Hsi6 & Hsm) Hok Hlog r.
  destruct (joinFreeWithReserve_frame s)
    as (HP & _ & _ & _ & _ & H4 & H6 & Hi4 & Hi6 & Hm & _).
  set (j := subnet.joinFreeWithReserve s) in *.
  assert (families_ok j = true) as Hokj.
  { rewrite (families_ok_ext s0 j); [done|congruence..]. }
  destruct (revalidate_kept name cidrStr f (map_to_list (PodToIP f j)) j log) as [Hk Hl].
  { intros q iq Hq. by apply families_ok_entries. }
  fold r in Hk, Hl. destruct Hk. unfold owners_kept. repeat split.
  - congruence.
  - congruence.
  - etrans; [exact Hsi4|]. by rewrite <- Hi4.
  - etrans; [exact Hsi6|]. by rewrite <- Hi6.
  - etrans; [exact Hsm|]. by rewrite <- Hm.
  - congruence.
  - intros g q iq Hsup Hq.
    replace (FreeIPList g (fst r)) with (FreeIPList g j)
      by (destruct g; simpl; congruence).
    apply (joinFreeWithReserve_clear s g q iq).
    + rewrite <- Hsup. unfold supports. congruence.
    + destruct g; simpl in *; congruence.
  - intros line Hline. destruct (Hl line Hline) as [Hin|(q & iq & Hq & ->)]; [by apply Hlog|].
    exists q. split; [done|].
    apply list_elem_of_In, elem_of_map_to_list in Hq.
    destruct f; simpl in Hq; [left|right]; rewrite <- ?Hs4, <- ?Hs6, <- ?H4, <- ?H6; by eexists.
Qed.

(** The reconfiguration path of [AddOrUpdateSubnet] as a whole. *)
Lemma reconfigure_existing ipam name cidrStr excludeIps s :
  snd (snd (parseCidrs cidrStr)) = None ->
  Subnets ipam !! name = Some s ->
  families_ok s = true ->
  exists s' log,
    AddOrUpdateSubnet ipam name cidrStr excludeIps = (store ipam name s', log, None) /\
    owners_kept s s' /\ Protocol s' = fst (parseCidrs cidrStr) /\
    free_clear_of s s' /\ lines_of_owners name cidrStr s log.
Proof.
  intros Hparse Hs Hok. unfold AddOrUpdateSubnet.
  destruct (parseCidrs cidrStr) as [protocol [[v4cidrStr v6cidrStr] err]].
  simpl in Hparse. subst err. simpl fst.
  destruct (splitIpsByProtocol excludeIps) as [v4ExcludeIps v6ExcludeIps].
  rewrite Hs.
  assert (lines_of_owners name cidrStr s []) as Hnil by (by intros line []).
  assert (forall g, supports g (set_Protocol protocol s) = true ->
            String.eqb protocol kubeovnv1.ProtocolDual || String.eqb protocol kubeovnv1.ProtocolIPv4 = true
            \/ String.eqb protocol kubeovnv1.ProtocolDual || String.eqb protocol kubeovnv1.ProtocolIPv6 = true)
    as Hsupports.
  { intros g. unfold supports. simpl. destruct g; auto. }
  destruct (String.eqb protocol kubeovnv1.ProtocolDual || String.eqb protocol kubeovnv1.ProtocolIPv4) eqn:Hc4.
  - match goal with |- context [revalidate _ _ _ (subnet.joinFreeWithReserve ?x, [])] =>
      destruct (rebuild_block name cidrStr net.V4 s x []) as (Hk & Hp & Hf & Hl);
        [by repeat split|done|done|]
    end.
    simpl PodToIP in *.
    match goal with |- context [revalidate ?a ?b ?c ?d] =>
      destruct (revalidate a b c d) as [sc logc]
    end.
    simpl in Hk, Hp, Hf, Hl.
    destruct (String.eqb protocol kubeovnv1.ProtocolDual || String.eqb protocol kubeovnv1.ProtocolIPv6) eqn:Hc6.
    + match goal with |- context [revalidate _ _ _ (subnet.joinFreeWithReserve ?x, logc)] =>
        destruct (rebuild_block name cidrStr net.V6 s x logc) as (Hk' & Hp' & Hf' & Hl');
          [exact Hk|done|done|]
      end.
      simpl PodToIP in *.
      match goal with |- context [revalidate ?a ?b ?c ?d] =>
        destruct (revalidate a b c d) as [se loge]
      end.
      simpl in Hk', Hp', Hf', Hl'. exists se, loge. repeat split; try done; try apply Hk'.
      congruence.
    + exists sc, logc. repeat split; try done; apply Hk.
  - destruct (String.eqb protocol kubeovnv1.ProtocolDual || String.eqb protocol kubeovnv1.ProtocolIPv6) eqn:Hc6.
    + match goal with |- context [revalidate _ _ _ (subnet.joinFreeWithReserve ?x, [])] =>
        destruct (rebuild_block name cidrStr net.V6 s x []) as (Hk' & Hp' & Hf' & Hl');
          [by repeat split|done|done|]
      end.
      simpl PodToIP in *.
      match goal with |- context [revalidate ?a ?b ?c ?d] =>
        destruct (revalidate a b c d) as [se loge]
      end.
      simpl in Hk', Hp', Hf', Hl'. exists se, loge. repeat split; try done; apply Hk'.
    + exists (set_Protocol protocol s), []. repeat split; try done.
      intros g q iq Hsup Hq. destruct (Hsupports g Hsup); discriminate.
Qed.

(** C1 (free list after reconfiguration): when [AddOrUpdateSubnet] is
    given a CIDR that parses and the name of a subnet that exists, it
    succeeds, and in the subnet it leaves no address that an owner held
    before the call is in the free list of a family of the new protocol.
    The subnet is taken with its address maps sorted by family
    ([families_ok]), as every subnet that the methods of the registry built
    is ([reachable_families_ok] below). *)
Theorem reconfigure_free_excludes_assigned (ipam : IPAM) (name cidrStr : string)
  (excludeIps : list string) (s : Subnet) :
  cidrInvalid cidrStr = false ->
  Subnets ipam !! name = Some s ->
  families_ok s = true ->
  exists s' log,
    AddOrUpdateSubnet ipam name cidrStr excludeIps = (store ipam name s', log, None) /\
    Protocol s' = util.CheckProtocol cidrStr /\
    forall f podName ip,
      supports f s' = true -> PodToIP f s !! podName = Some ip ->
      Contains (FreeIPList f s') ip = false.
Proof.
  intros Hparse%parseCidrs_error Hs Hok.
  destruct (reconfigure_existing ipam name cidrStr excludeIps s Hparse Hs Hok)
    as (s' & log & Heq & _ & Hp & Hclear & _).
  rewrite parseCidrs_protocol in Hp.
  exists s', log. repeat split; done.
Qed.

(** [reconfigure_free_excludes_assigned] at [demo.regX], whose owner [p1]
    holds 10.0.0.3: the subnet grows to 10.0.0.0/29 and 10.0.0.3 is not in
    the new free list. *)
Lemma reconfigure_free_excludes_assigned_witness :
  exists s' log,
    AddOrUpdateSubnet demo.regX "x" "10.0.0.0/29" [] = (store demo.regX "x" s', log, None) /\
    Contains (V4FreeIPList s') "10.0.0.3" = false.
Proof.
  destruct (Subnets demo.regX !! "x") as [s|] eqn:E; [|vm_compute in E; discriminate].
  destruct (reconfigure_free_excludes_assigned demo.regX "x" "10.0.0.0/29" [] s)
    as (s' & log & Heq & Hp & Hclear).
  - vm_compute. reflexivity.
  - exact E.
  - vm_compute in E. injection E as <-. vm_compute. reflexivity.
  - exists s', log. split; [exact Heq|].
    apply (Hclear net.V4 "p1" "10.0.0.3").
    + unfold supports. rewrite Hp. vm_compute. reflexivity.
    + vm_compute in E. injection E as <-. vm_compute. reflexivity.
Defined.

(** C4 (tolerant reconfiguration): when [AddOrUpdateSubnet] is given a CIDR
    that parses and the name of a subnet that exists, it returns no error,
    whatever the re-validation of the owners gave; every owner keeps its
    addresses, its reverse entries and its MAC; and every error line the
    re-validation logged is about an owner that is still recorded after the
    call.  The subnet is taken with its address maps sorted by family
    ([families_ok]), as every subnet that the methods of the registry built
    is ([reachable_families_ok] below). *)
Theorem reconfigure_keeps_failing_owners (ipam : IPAM) (name cidrStr : string)
  (excludeIps : list string) (s : Subnet) :
  cidrInvalid cidrStr = false ->
  Subnets ipam !! name = Some s ->
  families_ok s = true ->
  exists s' log,
    AddOrUpdateSubnet ipam name cidrStr excludeIps = (store ipam name s', log, None) /\
    V4PodToIP s' = V4PodToIP s /\ V6PodToIP s' = V6PodToIP s /\
    V4IPToPod s ⊆ V4IPToPod s' /\ V6IPToPod s ⊆ V6IPToPod s' /\
    PodToMac s ⊆ PodToMac s' /\
    forall line, In line log ->
      exists podName, line = notInNewCidr podName name cidrStr /\
        (is_Some (V4PodToIP s' !! podName) \/ is_Some (V6PodToIP s' !! podName)).
Proof.
  intros Hparse%parseCidrs_error Hs Hok.
  destruct (reconfigure_existing ipam name cidrStr excludeIps s Hparse Hs Hok)
    as (s' & log & Heq & (H4 & H6 & Hi4 & Hi6 & Hm) & _ & _ & Hlines).
  exists s', log. repeat split; try done.
  intros line Hline. destruct (Hlines line Hline) as (q & -> & Hq).
  exists q. split; [done|]. by rewrite H4, H6.
Qed.

(** In [demo.regV] the owner [p] holds 10.0.0.5 and an IPv6 address.  The
    subnet is shrunk to 10.0.0.0/30: the re-validation of [p] logs an error,
    the call returns none, and [p] still holds 10.0.0.5. *)
Lemma reconfigure_keeps_failing_owners_witness :
  exists s',
    AddOrUpdateSubnet demo.regV "s" "10.0.0.0/30,fd00::/126" ["10.0.0.1"]
    = (store demo.regV "s" s',
       ["p address not in subnet s new cidr 10.0.0.0/30,fd00::/126"], None) /\
    V4PodToIP s' !! "p" = Some "10.0.0.5".
Proof.
  destruct (Subnets demo.regV !! "s") as [s|] eqn:E; [|vm_compute in E; discriminate].
  destruct (reconfigure_keeps_failing_owners demo.regV "s" "10.0.0.0/30,fd00::/126"
              ["10.0.0.1"] s)
    as (s' & log & Heq & H4 & _).
  - vm_compute. reflexivity.
  - exact E.
  - vm_compute in E. injection E as <-. vm_compute. reflexivity.
  - exists s'. split.
    + rewrite Heq. f_equal. f_equal.
      vm_compute in Heq. injection Heq as _ Hlog. by rewrite <- Hlog.
    + rewrite H4. vm_compute in E. injection E as <-. vm_compute. reflexivity.
Defined.

End Reconfigure.

(** ** The families invariant of the registries the methods build *)

Section Invariant.

Import ipam.

Lemma families_ok_lookup s :
  families_ok s = true <->
  forall f podName ip, PodToIP f s !! podName = Some ip -> familyOf f ip = true.
Proof.
  unfold families_ok. rewrite andb_true_iff, !forallb_forall. split.
  - intros [H4 H6] f podName ip Hl.
    apply elem_of_map_to_list, list_elem_of_In in Hl.
    destruct f; simpl in Hl; [apply (H4 _ Hl)|apply (H6 _ Hl)].
  - intros H. split; intros [podName ip] Hin;
      apply list_elem_of_In, elem_of_map_to_list in Hin.
    + by apply (H net.V4 podName ip).
    + by apply (H net.V6 podName ip).
Qed.

Lemma familyOf_parsed ip a : net.ParseIP ip = Some a -> familyOf (net.fam a) ip = true.
Proof. intros Hp. unfold familyOf. rewrite Hp. by apply bool_decide_eq_true. Qed.

Lemma familyOf_text f x : familyOf f (net.String_ (net.mkAddr f x)) = true.
Proof.
  unfold familyOf. destruct (net.ParseIP _) as [a|] eqn:Hp; [|done].
  apply ParseIP_String in Hp as ->. by apply bool_decide_eq_true.
Qed.

Lemma free_ok_single f ip : familyOf f ip = true -> free_ok f [mkIPRange ip ip].
Proof.
  intros Hf r g x y [<-|[]] [Hs _]%bounds_ends. unfold familyOf in Hf.
  rewrite Hs in Hf. by apply bool_decide_eq_true in Hf.
Qed.

Lemma free_ok_rangeMinus f r o :
  free_ok f [r] -> free_ok f (rangeMinus r o).
Proof.
  intros Hr. unfold rangeMinus.
  destruct (bounds r) as [[[fr s] e]|] eqn:Br; [|done].
  assert (fr = f) as -> by (by apply (Hr r fr s e); [left|]).
  destruct (bounds o) as [[[g a] b]|]; [|done].
  destruct (_ && _); [|done].
  intros p g' x y Hin Hb. apply in_app_or in Hin as [Hin|Hin].
  - destruct (_ <? _)%Z; [|done]. destruct Hin as [<-|[]].
    by apply (bounds_left_piece r f s e) in Hb as (-> & _).
  - destruct (_ <? _)%Z; [|done]. destruct Hin as [<-|[]].
    by apply (bounds_right_piece r f s e) in Hb as (-> & _).
Qed.

Lemma free_ok_subtract f l others : free_ok f l -> free_ok f (subtract l others).
Proof.
  unfold subtract. revert l. induction others as [|o others IH]; intros l Hl; [done|].
  simpl. apply IH. intros p g x y Hin Hb.
  apply in_flat_map in Hin as (r & Hr & Hp).
  apply (free_ok_rangeMinus f r o) with (r := p) (x := x) (y := y); [|done..].
  intros r' g' x' y' [<-|[]] Hb'. by apply (Hl r g' x' y').
Qed.

Lemma free_ok_allocateExact f l ip l' :
  allocateExact l ip = Some l' -> free_ok f l -> free_ok f l'.
Proof.
  unfold allocateExact. destruct (Contains l ip); [|done].
  intros Heq Hl. injection Heq as <-.
  exact (free_ok_subtract f l [mkIPRange ip ip] Hl).
Qed.

Lemma free_ok_allocateAny f seed l ip l' :
  allocateAny seed l = Some (ip, l') -> free_ok f l ->
  familyOf f ip = true /\ free_ok f l'.
Proof.
  unfold allocateAny. destruct (l !! _) as [r|] eqn:Hr; [|done].
  destruct (bounds r) as [[[g s] e]|] eqn:Br; [|done].
  destruct (s <=? e)%Z; [|done]. intros Heq Hl. injection Heq as <- <-.
  assert (g = f) as ->.
  { apply (Hl r g s e); [|done]. by apply list_elem_of_In, list_elem_of_lookup; eexists. }
  split; [apply familyOf_text|].
  exact (free_ok_subtract f l [mkIPRange _ _] Hl).
Qed.

Lemma In_insert_range ip a l r :
  In r (insert_range ip a l) -> r = mkIPRange ip ip \/ In r l.
Proof.
  induction l as [|r0 l IH]; simpl.
  - intros [<-|[]]. by left.
  - destruct (starts_after r0 a); simpl.
    + intros [<-|[<-|Hin]]; auto.
    + intros [<-|Hin]; [auto|]. destruct (IH Hin); auto.
Qed.

Lemma free_ok_merge_cons f r acc :
  free_ok f [r] -> free_ok f acc -> free_ok f (merge_cons r acc).
Proof.
  intros Hr Hacc. unfold merge_cons. destruct acc as [|r2 t]; [done|].
  destruct (adjacent r r2) eqn:Hadj.
  - intros r' g x y [<-|Hin] Hb.
    + apply bounds_ends in Hb as [Hs _]. simpl in Hs.
      unfold adjacent in Hadj. destruct (bounds r) as [[[fr sr] er]|] eqn:Br; [|done].
      assert (fr = f) as -> by (by apply (Hr r fr sr er); [left|]).
      destruct r as [rs re]. apply bounds_ends in Br as [Hs' _]. simpl in *. congruence.
    + apply (Hacc r' g x y); [by right|done].
  - intros r' g x y [<-|Hin] Hb.
    + apply (Hr r g x y); [by left|done].
    + by apply (Hacc r' g x y).
Qed.

Lemma free_ok_merge f l : free_ok f l -> free_ok f (fold_right merge_cons [] l).
Proof.
  induction l as [|r l IH]; intros Hl; [done|]. simpl.
  apply free_ok_merge_cons.
  - intros r' g x y [<-|[]]. apply Hl. by left.
  - apply IH. intros r' g x y Hin. apply Hl. by right.
Qed.

Lemma free_ok_release f l ip :
  familyOf f ip = true -> free_ok f l -> free_ok f (release l ip).
Proof.
  intros Hf Hl. unfold release. destruct (net.ParseIP ip) as [a|]; [|done].
  apply free_ok_merge. intros r g x y [->|Hin]%In_insert_range Hb.
  - by apply (free_ok_single f ip Hf (mkIPRange ip ip) g x y); [left|].
  - by apply (Hl r g x y).
Qed.

Lemma wf_kept s s' : kept s s' -> wf s -> wf s'.
Proof.
  intros Hk [Hfam Hfree]. split.
  - rewrite (families_ok_ext s s'); [done|apply Hk..].
  - intros f. destruct f; simpl;
      [rewrite (kept_V4Free _ _ Hk)|rewrite (kept_V6Free _ _ Hk)]; apply Hfree.
Qed.

Lemma wf_set_FreeIPList f l s : free_ok f l -> wf s -> wf (set_FreeIPList f l s).
Proof.
  intros Hl [Hfam Hfree]. split.
  - rewrite <- Hfam. by destruct f.
  - intros g. specialize (Hfree g). by destruct f, g.
Qed.

Lemma wf_set_V4ReservedIPList l s : wf s -> wf (set_V4ReservedIPList l s).
Proof. by intros [Hfam Hfree]. Qed.

Lemma wf_set_V6ReservedIPList l s : wf s -> wf (set_V6ReservedIPList l s).
Proof. by intros [Hfam Hfree]. Qed.

Lemma wf_set_Protocol v s : wf s -> wf (set_Protocol v s).
Proof. by intros [Hfam Hfree]. Qed.

Lemma wf_record f podName ip mac s :
  familyOf f ip = true -> wf s -> wf (subnet.record f podName ip mac s).
Proof.
  intros Hip [Hfam Hfree]. split.
  - apply families_ok_lookup. intros g q iq Hq.
    rewrite families_ok_lookup in Hfam.
    destruct f, g; simpl in Hq;
      try (by apply (Hfam _ q iq));
      (destruct (decide (q = podName)) as [->|Hne];
        [rewrite lookup_insert_eq in Hq; by injection Hq as <-
        |rewrite lookup_insert_ne in Hq by done; by apply (Hfam _ q iq)]).
  - intros g. specialize (Hfree g). by destruct f, g.
Qed.

Lemma wf_GetStaticAddress s podName ip mac force :
  wf s -> wf (fst (subnet.GetStaticAddress s podName ip mac force)).
Proof.
  intros Hwf. unfold subnet.GetStaticAddress.
  destruct (net.ParseIP ip) as [a|] eqn:Hp; [|done].
  pose proof (familyOf_parsed ip a Hp) as Hfam.
  destruct (CIDR (net.fam a) s); [|done].
  destruct (negb _); [done|]. destruct (subnet.heldByOther _ _ _ _); [done|].
  destruct force; simpl fst.
  - by apply wf_record.
  - destruct (allocateExact _ ip) as [free'|] eqn:Ha.
    + simpl. apply wf_record; [done|]. apply wf_set_FreeIPList; [|done].
      apply (free_ok_allocateExact _ _ _ _ Ha). apply Hwf.
    + by destruct (Contains _ ip).
Qed.

Lemma wf_allocateFamily seed f s ip s' :
  subnet.allocateFamily seed f s = Some (ip, s') -> wf s ->
  wf s' /\ (ip = "" \/ familyOf f ip = true).
Proof.
  unfold subnet.allocateFamily. destruct (supports f s).
  - destruct (allocateAny seed (FreeIPList f s)) as [[ip' free']|] eqn:Ha; [|done].
    intros [= <- <-] Hwf.
    destruct (free_ok_allocateAny f seed _ _ _ Ha) as [Hip Hfree]; [apply Hwf|].
    split; [by apply wf_set_FreeIPList|by right].
  - intros [= <- <-] Hwf. split; [done|by left].
Qed.

Lemma wf_recordFamily f podName ip mac s :
  ip = "" \/ familyOf f ip = true -> wf s -> wf (subnet.recordFamily f podName ip mac s).
Proof.
  intros Hip Hwf. unfold subnet.recordFamily.
  destruct (String.eqb_spec ip ""); [done|]. apply wf_record; [|done].
  by destruct Hip.
Qed.

Lemma wf_GetRandomAddress s seed podName :
  wf s -> wf (fst (subnet.GetRandomAddress s seed podName)).
Proof.
  intros Hwf. unfold subnet.GetRandomAddress.
  destruct (V4PodToIP s !! podName); [done|].
  destruct (V6PodToIP s !! podName); [done|].
  destruct (subnet.allocateFamily seed net.V4 s) as [[v4IP s1]|] eqn:E4; [|done].
  destruct (wf_allocateFamily _ _ _ _ _ E4 Hwf) as [Hwf1 Hip4].
  destruct (subnet.allocateFamily seed net.V6 s1) as [[v6IP s2]|] eqn:E6; simpl fst.
  - destruct (wf_allocateFamily _ _ _ _ _ E6 Hwf1) as [Hwf2 Hip6].
    by apply wf_recordFamily; [|apply wf_recordFamily].
  - destruct (String.eqb_spec v4IP ""); [done|].
    apply (wf_set_FreeIPList net.V4); [|done].
    apply free_ok_release; [by destruct Hip4|]. apply (proj2 Hwf1 net.V4).
Qed.

Lemma wf_releaseFamily f podName s : wf s -> wf (subnet.releaseFamily f podName s).
Proof.
  intros Hwf. unfold subnet.releaseFamily.
  destruct (PodToIP f s !! podName) as [ip|] eqn:Hip; [|done].
  assert (familyOf f ip = true) as Hfam.
  { destruct Hwf as [Hfam _]. rewrite families_ok_lookup in Hfam. by apply (Hfam f podName). }
  apply wf_set_FreeIPList.
  - destruct f; simpl; apply free_ok_release; try done; apply (proj2 Hwf).
  - destruct Hwf as [Hok Hfree]. split.
    + apply families_ok_lookup. rewrite families_ok_lookup in Hok.
      intros g q iq Hq. apply (Hok g q iq).
      destruct f, g; simpl in *; try done;
        by apply lookup_delete_Some in Hq as [_ Hq].
    + intros g. specialize (Hfree g). by destruct f, g.
Qed.

Lemma wf_ReleaseAddress s podName : wf s -> wf (subnet.ReleaseAddress s podName).
Proof.
  intros Hwf. unfold subnet.ReleaseAddress.
  pose proof (wf_releaseFamily net.V6 podName _ (wf_releaseFamily net.V4 podName s Hwf)) as H.
  by destruct (PodToMac _ !! podName).
Qed.

Lemma wf_joinFreeWithReserve s : wf s -> wf (subnet.joinFreeWithReserve s).
Proof.
  intros Hwf. unfold subnet.joinFreeWithReserve.
  assert (forall f s0, wf s0 ->
            wf (if supports f s0
                then set_FreeIPList f
                       (subtract (subtract (FreeIPList f s0) (ReservedIPList f s0))
                          (subnet.assigned f s0)) s0
                else s0)) as Hjoin.
  { intros f s0 Hwf0. destruct (supports f s0); [|done].
    apply wf_set_FreeIPList; [|done]. do 2 apply free_ok_subtract. apply Hwf0. }
  apply (Hjoin net.V6). by apply (Hjoin net.V4).
Qed.

Lemma CheckProtocol_cases address :
  util.CheckProtocol address = kubeovnv1.ProtocolDual \/
  util.CheckProtocol address
  = if hasV4 address then kubeovnv1.ProtocolIPv4 else kubeovnv1.ProtocolIPv6.
Proof.
  unfold util.CheckProtocol, hasV4.
  destruct (strings.Split ","%char address) as [|a [|b [|c t]]]; auto.
  destruct (_ && _); auto.
Qed.

Lemma ParseCIDR_family cidr a n :
  net.ParseCIDR cidr = Some (a, n) ->
  net.net_fam n = net.fam a /\
  net.ParseIP (hd "" (strings.Split "/"%char cidr)) = Some a.
Proof.
  unfold net.ParseCIDR.
  destruct (strings.Split "/"%char cidr) as [|ip [|len [|x t]]]; try done.
  simpl hd. destruct (net.ParseIP ip) as [a'|]; [|done].
  destruct (net.undec len); [|done]. destruct (_ <=? _)%Z; [|done].
  by intros [= <- <-].
Qed.

(** The IPv4 text and the IPv6 text that [parseCidrs] hands to a family of
    the protocol are CIDRs of that family. *)
Lemma parseCidrs_family cidrStr protocol v4cidrStr v6cidrStr f a n :
  parseCidrs cidrStr = (protocol, (v4cidrStr, v6cidrStr, None)) ->
  String.eqb protocol kubeovnv1.ProtocolDual
  || String.eqb protocol
       (match f with net.V4 => kubeovnv1.ProtocolIPv4 | net.V6 => kubeovnv1.ProtocolIPv6 end)
  = true ->
  net.ParseCIDR (match f with net.V4 => v4cidrStr | net.V6 => v6cidrStr end) = Some (a, n) ->
  net.net_fam n = f.
Proof.
  unfold parseCidrs.
  destruct (String.eqb_spec (util.CheckProtocol cidrStr) kubeovnv1.ProtocolDual) as [Hd|Hd].
  - unfold util.CheckDualCidrs.
    destruct (strings.Split ","%char cidrStr) as [|x [|y [|z t]]]; try done.
    destruct (net.ParseCIDR x) as [[a4 n4]|] eqn:E4; [|done].
    destruct (net.ParseCIDR y) as [[a6 n6]|] eqn:E6; [|done].
    destruct (bool_decide (net.net_fam n4 = net.V4)) eqn:H4; [|done].
    destruct (bool_decide (net.net_fam n6 = net.V6)) eqn:H6; [|done].
    apply bool_decide_eq_true in H4, H6. simpl.
    intros [= <- <- <-] _. destruct f; congruence.
  - destruct (net.ParseCIDR cidrStr) as [[a0 n0]|] eqn:E; [|done].
    intros [= <- <- <-] Hp.
    replace (match f with net.V4 => cidrStr | net.V6 => cidrStr end) with cidrStr
      by (by destruct f).
    rewrite E. intros [= <- <-].
    destruct (ParseCIDR_family _ _ _ E) as [-> Hip].
    destruct (CheckProtocol_cases cidrStr) as [Hc|Hc]; [done|].
    unfold hasV4 in Hc. rewrite Hip in Hc. rewrite Hc in Hp.
    destruct a0 as [[] x]; simpl in *; destruct f; done.
Qed.

Lemma ParseIP_empty : net.ParseIP "" = None.
Proof. reflexivity. Qed.

(** The one-interval free list of a reconfiguration is of its family. *)
Lemma free_ok_FirstLast f cidr :
  (forall a n, net.ParseCIDR cidr = Some (a, n) -> net.net_fam n = f) ->
  free_ok f [mkIPRange (fst (util.FirstSubnetIP cidr)) (fst (util.LastIP cidr))].
Proof.
  intros Hf r g x y [<-|[]] [Hs _]%bounds_ends. simpl in Hs.
  unfold util.FirstSubnetIP in Hs. destruct (net.ParseCIDR cidr) as [[a n]|] eqn:E.
  - simpl in Hs. apply ParseIP_String in Hs. injection Hs as -> _. by apply (Hf a n).
  - simpl in Hs. by rewrite ParseIP_empty in Hs.
Qed.

Lemma free_ok_wholeNet f n :
  (forall n0, n = Some n0 -> net.net_fam n0 = f) -> free_ok f (wholeNet n).
Proof.
  intros Hn. destruct n as [n0|]; [|by intros r g x y []].
  intros r g x y [<-|[]] [Hs _]%bounds_ends. simpl in Hs.
  apply ParseIP_String in Hs. injection Hs as -> _. by apply Hn.
Qed.

Lemma wf_NewSubnet name cidrStr excludeIps s :
  NewSubnet name cidrStr excludeIps = inl s -> wf s.
Proof.
  unfold NewSubnet.
  match goal with |- context [match ?nets with Some _ => _ | None => _ end = _] =>
    destruct nets as [[n4 n6]|] eqn:Hnets end; [|done].
  destruct (splitIpsByProtocol excludeIps) as [v4ExcludeIps v6ExcludeIps].
  intros [= <-]. apply wf_joinFreeWithReserve.
  assert ((forall n0, n4 = Some n0 -> net.net_fam n0 = net.V4) /\
          (forall n0, n6 = Some n0 -> net.net_fam n0 = net.V6)) as [H4 H6].
  { destruct (String.eqb _ _).
    - unfold util.CheckDualCidrs in Hnets.
      destruct (strings.Split ","%char cidrStr) as [|x [|y [|z t]]]; try done.
      destruct (net.ParseCIDR x) as [[a4 m4]|] eqn:E4; [|done].
      destruct (net.ParseCIDR y) as [[a6 m6]|] eqn:E6; [|done].
      destruct (bool_decide (net.net_fam m4 = net.V4)) eqn:B4; [|done].
      destruct (bool_decide (net.net_fam m6 = net.V6)) eqn:B6; [|done].
      apply bool_decide_eq_true in B4, B6. simpl in Hnets. rewrite E4, E6 in Hnets.
      injection Hnets as <- <-. split; by intros n0 [= <-].
    - destruct (net.ParseCIDR cidrStr) as [[a0 m]|]; [|done].
      destruct (net.net_fam m) eqn:Hm; injection Hnets as <- <-;
        split; intros n0 [=]; by subst. }
  split; [done|]. intros []; simpl; by apply free_ok_wholeNet.
Qed.

Lemma wf_block name cidrStr f s log :
  wf s ->
  wf (fst (revalidate name cidrStr
             (map_to_list (PodToIP f (subnet.joinFreeWithReserve s)))
             (subnet.joinFreeWithReserve s, log))).
Proof.
  intros Hwf%wf_joinFreeWithReserve.
  set (j := subnet.joinFreeWithReserve s) in *.
  destruct (revalidate_kept name cidrStr f (map_to_list (PodToIP f j)) j log) as [Hk _].
  - intros q iq Hq. apply families_ok_entries; [apply Hwf|done].
  - by apply (wf_kept j).
Qed.

Lemma all_wf_store ipam name s : all_wf ipam -> wf s -> all_wf (store ipam name s).
Proof. intros Hall Hs. by apply map_Forall_insert_2. Qed.

Lemma wf_AddOrUpdateSubnet ipam name cidrStr excludeIps :
  all_wf ipam -> all_wf (fst (fst (AddOrUpdateSubnet ipam name cidrStr excludeIps))).
Proof.
  intros Hall. unfold AddOrUpdateSubnet.
  destruct (parseCidrs cidrStr) as [protocol [[v4cidrStr v6cidrStr] [e|]]] eqn:Hparse; [done|].
  destruct (splitIpsByProtocol excludeIps) as [v4ExcludeIps v6ExcludeIps].
  destruct (Subnets ipam !! name) as [s|] eqn:Hs.
  2: { destruct (NewSubnet name cidrStr excludeIps) as [s|err] eqn:Hnew; [|done].
       simpl. apply all_wf_store; [done|]. by apply (wf_NewSubnet name cidrStr excludeIps). }
  pose proof (Hall name s Hs) as Hwf. simpl in Hwf.
  apply (wf_set_Protocol protocol) in Hwf.
  assert (forall f, String.eqb protocol kubeovnv1.ProtocolDual
                    || String.eqb protocol
                         (match f with
                          | net.V4 => kubeovnv1.ProtocolIPv4
                          | net.V6 => kubeovnv1.ProtocolIPv6
                          end) = true ->
            free_ok f [mkIPRange
                         (fst (util.FirstSubnetIP
                                 (match f with net.V4 => v4cidrStr | net.V6 => v6cidrStr end)))
                         (fst (util.LastIP
                                 (match f with net.V4 => v4cidrStr | net.V6 => v6cidrStr end)))])
    as Hfirst.
  { intros f Hc. apply free_ok_FirstLast. intros a n.
    by apply (parseCidrs_family cidrStr protocol v4cidrStr v6cidrStr f a n). }
  destruct (String.eqb protocol kubeovnv1.ProtocolDual || String.eqb protocol kubeovnv1.ProtocolIPv4) eqn:Hc4.
  - match goal with |- context [revalidate _ _ _ (subnet.joinFreeWithReserve ?x, [])] =>
      pose proof (wf_block name cidrStr net.V4 x []) as Hb4
    end.
    simpl PodToIP in Hb4.
    match goal with |- context [revalidate ?a ?b ?c ?d] =>
      destruct (revalidate a b c d) as [sc logc]
    end.
    simpl in Hb4.
    assert (wf sc) as Hwfc.
    { apply Hb4. apply (wf_set_FreeIPList net.V4); [by apply (Hfirst net.V4)|].
      by apply wf_set_V4ReservedIPList. }
    destruct (String.eqb protocol kubeovnv1.ProtocolDual || String.eqb protocol kubeovnv1.ProtocolIPv6) eqn:Hc6.
    + match goal with |- context [revalidate _ _ _ (subnet.joinFreeWithReserve ?x, logc)] =>
        pose proof (wf_block name cidrStr net.V6 x logc) as Hb6
      end.
      simpl PodToIP in Hb6.
      match goal with |- context [revalidate ?a ?b ?c ?d] =>
        destruct (revalidate a b c d) as [se loge]
      end.
      simpl in *. apply all_wf_store; [done|].
      apply Hb6. apply (wf_set_FreeIPList net.V6); [by apply (Hfirst net.V6)|].
      by apply wf_set_V6ReservedIPList.
    + simpl. by apply all_wf_store.
  - destruct (String.eqb protocol kubeovnv1.ProtocolDual || String.eqb protocol kubeovnv1.ProtocolIPv6) eqn:Hc6.
    + match goal with |- context [revalidate _ _ _ (subnet.joinFreeWithReserve ?x, [])] =>
        pose proof (wf_block name cidrStr net.V6 x []) as Hb6
      end.
      simpl PodToIP in Hb6.
      match goal with |- context [revalidate ?a ?b ?c ?d] =>
        destruct (revalidate a b c d) as [se loge]
      end.
      simpl in *. apply all_wf_store; [done|].
      apply Hb6. apply (wf_set_FreeIPList net.V6); [by apply (Hfirst net.V6)|].
      by apply wf_set_V6ReservedIPList.
    + simpl. by apply all_wf_store.
Qed.

(** Every subnet of a registry that the methods built meets the invariant. *)
Lemma reachable_all_wf ipam : reachable ipam -> all_wf ipam.
Proof.
  induction 1 as [|ipam seed podName subnetName _ IH|ipam podName ip mac subnetName _ IH
                  |ipam podName _ IH|ipam name cidrStr excludeIps _ IH|ipam subnetName _ IH].
  - apply map_Forall_empty.
  - unfold GetRandomAddress. destruct (Subnets ipam !! subnetName) as [s|] eqn:Hs; [|done].
    pose proof (wf_GetRandomAddress s seed podName (IH _ _ Hs)) as Hwf.
    destruct (subnet.GetRandomAddress s seed podName) as [s' [[[v4 v6] mac] err]].
    by apply all_wf_store.
  - unfold GetStaticAddress. destruct (Subnets ipam !! subnetName) as [s|] eqn:Hs; [|done].
    pose proof (IH _ _ Hs) as Hwf. simpl in Hwf.
    destruct (String.eqb _ _).
    + pose proof (wf_GetStaticAddress s podName (nth 0 (strings.Split ","%char ip) "") mac false Hwf) as H1.
      destruct (subnet.GetStaticAddress s podName _ mac false) as [s1 [[v4 mac1] e1]].
      pose proof (wf_GetStaticAddress s1 podName (nth 1 (strings.Split ","%char ip) "") mac1 false H1) as H2.
      destruct (subnet.GetStaticAddress s1 podName _ mac1 false) as [s2 [[v6 mac2] e2]].
      by apply all_wf_store.
    + pose proof (wf_GetStaticAddress s podName ip mac false Hwf) as H1.
      destruct (subnet.GetStaticAddress s podName ip mac false) as [s1 [[ip1 mac1] e1]].
      destruct (String.eqb _ _); by apply all_wf_store.
  - unfold all_wf, ReleaseAddressByPod. simpl. apply map_Forall_fmap.
    intros name s Hs. simpl. apply wf_ReleaseAddress. by apply (IH name s).
  - by apply wf_AddOrUpdateSubnet.
  - unfold all_wf, DeleteSubnet. simpl. by apply map_Forall_delete.
Qed.

(** The hypothesis of the two reconfiguration theorems holds of every
    subnet of every registry the methods build. *)
Lemma reachable_families_ok ipam name s :
  reachable ipam -> Subnets ipam !! name = Some s -> families_ok s = true.
Proof. intros Hr Hs. by destruct (reachable_all_wf ipam Hr name s Hs). Qed.

End Invariant.

(** ** More of the registry: what each method leaves alone

    The statements below hold whatever the methods of [Subnet] do: their
    proofs only take the results of those methods apart. *)

Section RegistryFrames.

Import ipam.

Lemma store_lookup ipam name s other :
  Subnets (store ipam name s) !! other
  = if decide (name = other) then Some s else Subnets ipam !! other.
Proof. unfold store. simpl. apply lookup_insert. Qed.

Lemma store_names ipam name s n :
  is_Some (Subnets ipam !! name) ->
  is_Some (Subnets (store ipam name s) !! n) <-> is_Some (Subnets ipam !! n).
Proof.
  intros Hname. rewrite store_lookup. case_decide; [|done]. subst. by split.
Qed.

Lemma GetRandomAddress_restored ipam seed podName subnetName :
  restored ipam (fst (GetRandomAddress ipam seed podName subnetName)) subnetName.
Proof.
  unfold GetRandomAddress.
  destruct (Subnets ipam !! subnetName) as [s|] eqn:Hs; [|by left].
  destruct (subnet.GetRandomAddress s seed podName) as [s' [[[v4 v6] m] e]].
  right. by exists s'.
Qed.

Lemma GetStaticAddress_restored ipam podName ip mac subnetName :
  restored ipam (fst (GetStaticAddress ipam podName ip mac subnetName)) subnetName.
Proof.
  unfold GetStaticAddress.
  destruct (Subnets ipam !! subnetName) as [s|] eqn:Hs; [|by left].
  right. cbv zeta.
  destruct (String.eqb (util.CheckProtocol ip) kubeovnv1.ProtocolDual).
  - destruct (subnet.GetStaticAddress s podName _ mac false) as [s1 [[a4 m1] e1]].
    destruct (subnet.GetStaticAddress s1 podName _ m1 false) as [s2 [[a6 m2] e2]].
    by exists s2.
  - destruct (subnet.GetStaticAddress s podName ip mac false) as [s1 [[a1 m1] e1]].
    exists s1. by destruct (String.eqb _ _).
Qed.

Lemma restored_names ipam ipam' name n :
  restored ipam ipam' name ->
  is_Some (Subnets ipam' !! n) <-> is_Some (Subnets ipam !! n).
Proof. intros [->|(s' & Hs & ->)]; [done|]. by apply store_names. Qed.

Lemma restored_other ipam ipam' name other :
  restored ipam ipam' name -> other <> name ->
  Subnets ipam' !! other = Subnets ipam !! other.
Proof.
  intros [->|(s' & Hs & ->)] Hne; [done|]. rewrite store_lookup. by case_decide.
Qed.

(** X1.  The two allocation calls never add or remove a subnet, and never
    touch a subnet other than the one they name, whether they succeed or
    fail. *)
Theorem allocation_touches_named_subnet (ipam : IPAM) (seed : nat)
  (podName ip mac subnetName : string) :
  let r := fst (GetRandomAddress ipam seed podName subnetName) in
  let t := fst (GetStaticAddress ipam podName ip mac subnetName) in
  (forall n, is_Some (Subnets r !! n) <-> is_Some (Subnets ipam !! n)) /\
  (forall n, is_Some (Subnets t !! n) <-> is_Some (Subnets ipam !! n)) /\
  (forall other, other <> subnetName ->
     Subnets r !! other = Subnets ipam !! other /\
     Subnets t !! other = Subnets ipam !! other).
Proof.
  intros r t.
  pose proof (GetRandomAddress_restored ipam seed podName subnetName) as Hr.
  pose proof (GetStaticAddress_restored ipam podName ip mac subnetName) as Ht.
  split; [|split].
  - intros n. by apply (restored_names _ _ subnetName).
  - intros n. by apply (restored_names _ _ subnetName).
  - intros other Hne. split; by apply (restored_other _ _ subnetName).
Qed.

(** [allocation_touches_named_subnet] at [demo.regXD]: an allocation in [x]
    leaves [d] as it is. *)
Lemma allocation_touches_named_subnet_witness :
  Subnets (fst (GetRandomAddress demo.regXD 3 "p2" "x")) !! "d" = Subnets demo.regXD !! "d" /\
  Subnets (fst (GetStaticAddress demo.regXD "p2" "10.0.0.2" "" "x")) !! "d"
  = Subnets demo.regXD !! "d".
Proof.
  apply (proj2 (proj2 (allocation_touches_named_subnet demo.regXD 3 "p2" "10.0.0.2" "" "x"))).
  discriminate.
Defined.

Lemma AddOrUpdateSubnet_outcome ipam name cidrStr excludeIps :
  let '(ipam', log, err) := AddOrUpdateSubnet ipam name cidrStr excludeIps in
  (ipam' = ipam /\ log = [] /\ err <> None) \/
  (exists s', ipam' = store ipam name s' /\ err = None).
Proof.
  unfold AddOrUpdateSubnet.
  destruct (parseCidrs cidrStr) as [protocol [[v4cidrStr v6cidrStr] [e|]]]; [by left|].
  destruct (splitIpsByProtocol excludeIps) as [v4ExcludeIps v6ExcludeIps].
  destruct (Subnets ipam !! name) as [s|].
  - destruct (_ || _).
    + destruct (revalidate name cidrStr _ _) as [s1 log1].
      destruct (_ || _).
      * destruct (revalidate name cidrStr _ _) as [s2 log2]. right. by exists s2.
      * right. by exists s1.
    + destruct (_ || _).
      * destruct (revalidate name cidrStr _ _) as [s2 log2]. right. by exists s2.
      * right. by eexists.
  - destruct (NewSubnet name cidrStr excludeIps) as [s'|e]; [right; by exists s'|by left].
Qed.

(** X2.  [AddOrUpdateSubnet] is all or nothing: when it returns an error
    the registry is the one it was given and nothing was logged; when it
    returns nil the name is registered; and in either case no other name is
    touched. *)
Theorem AddOrUpdateSubnet_all_or_nothing (ipam : IPAM) (name cidrStr : string)
  (excludeIps : list string) :
  let '(ipam', log, err) := AddOrUpdateSubnet ipam name cidrStr excludeIps in
  (err <> None -> ipam' = ipam /\ log = []) /\
  (err = None -> is_Some (Subnets ipam' !! name)) /\
  (forall other, other <> name -> Subnets ipam' !! other = Subnets ipam !! other).
Proof.
  pose proof (AddOrUpdateSubnet_outcome ipam name cidrStr excludeIps) as H.
  destruct (AddOrUpdateSubnet ipam name cidrStr excludeIps) as [[ipam' log] err].
  destruct H as [(-> & -> & He)|(s' & -> & ->)].
  - repeat split; done.
  - repeat split; try done.
    + rewrite store_lookup. by case_decide.
    + intros other Hne. rewrite store_lookup. by case_decide.
Qed.

(** [AddOrUpdateSubnet_all_or_nothing] at [demo.regX]: a second subnet is
    registered and [x] stays as it is. *)
Lemma AddOrUpdateSubnet_all_or_nothing_witness :
  is_Some (Subnets demo.regXD !! "d") /\ Subnets demo.regXD !! "x" = Subnets demo.regX !! "x".
Proof.
  pose proof (AddOrUpdateSubnet_all_or_nothing demo.regX "d" "10.0.1.0/29,fd00::/126" []) as H.
  unfold demo.regXD.
  destruct (AddOrUpdateSubnet demo.regX "d" "10.0.1.0/29,fd00::/126" [])
    as [[ipam' log] err] eqn:E.
  destruct H as (_ & Hreg & Hother). simpl. split.
  - apply Hreg. vm_compute in E. by injection E as _ _ <-.
  - apply Hother. discriminate.
Defined.

(** X3.  Reconfiguring a subnet that exists never fails once the CIDR text
    parses: the exclude list and the addresses already assigned cannot make
    [AddOrUpdateSubnet] return an error, whatever state the subnet is in. *)
Theorem reconfigure_never_fails (ipam : IPAM) (name cidrStr : string)
  (excludeIps : list string) :
  is_Some (Subnets ipam !! name) -> cidrInvalid cidrStr = false ->
  snd (AddOrUpdateSubnet ipam name cidrStr excludeIps) = None.
Proof.
  intros [s Hs] Hok. apply parseCidrs_error in Hok. unfold AddOrUpdateSubnet.
  destruct (parseCidrs cidrStr) as [protocol [[v4cidrStr v6cidrStr] err]].
  simpl in Hok. subst err.
  destruct (splitIpsByProtocol excludeIps) as [v4ExcludeIps v6ExcludeIps].
  rewrite Hs.
  destruct (_ || _).
  - destruct (revalidate name cidrStr _ _) as [s1 log1].
    destruct (_ || _); [|done].
    by destruct (revalidate name cidrStr _ _) as [s2 log2].
  - destruct (_ || _); [|done].
    by destruct (revalidate name cidrStr _ _) as [s2 log2].
Qed.

(** [reconfigure_never_fails] at [demo.regX]: the subnet [x] is given a CIDR
    that its owner's address is not in, and an exclude list that is no list
    of addresses. *)
Lemma reconfigure_never_fails_witness :
  snd (AddOrUpdateSubnet demo.regX "x" "192.168.0.0/24" ["no address"]) = None.
Proof.
  apply (reconfigure_never_fails demo.regX "x" "192.168.0.0/24" ["no address"]).
  - vm_compute. by eexists.
  - vm_compute. reflexivity.
Defined.

Lemma DeleteSubnet_absent ipam name :
  Subnets ipam !! name = None -> DeleteSubnet ipam name = ipam.
Proof. intros H. destruct ipam as [m]. unfold DeleteSubnet. simpl in *. by rewrite delete_id. Qed.

Lemma store_DeleteSubnet ipam name s :
  store (DeleteSubnet ipam name) name s = store ipam name s.
Proof. unfold store, DeleteSubnet. simpl. by rewrite insert_delete_eq. Qed.

(** X4.  [DeleteSubnet] of a name that is not registered changes nothing;
    deleting twice is deleting once; and two deletions can be made in
    either order. *)
Theorem DeleteSubnet_absent_twice_swapped (ipam : IPAM) (name other : string) :
  (Subnets ipam !! name = None -> DeleteSubnet ipam name = ipam) /\
  DeleteSubnet (DeleteSubnet ipam name) name = DeleteSubnet ipam name /\
  DeleteSubnet (DeleteSubnet ipam name) other = DeleteSubnet (DeleteSubnet ipam other) name.
Proof.
  split; [apply DeleteSubnet_absent|]. unfold DeleteSubnet. simpl. split.
  - by rewrite delete_delete_eq.
  - by rewrite delete_delete.
Qed.

(** [DeleteSubnet_absent_twice_swapped] at [demo.regXD], which has no
    subnet [nosuch]. *)
Lemma DeleteSubnet_absent_twice_swapped_witness :
  DeleteSubnet demo.regXD "nosuch" = demo.regXD.
Proof.
  apply (proj1 (DeleteSubnet_absent_twice_swapped demo.regXD "nosuch" "x")).
  vm_compute. reflexivity.
Defined.

(** X5.  A subnet that is deleted and added again is built from scratch:
    the call takes the path of a new name, so the registry holds what
    [NewSubnet] builds (or is left without the name when [NewSubnet]
    fails), and nothing of the deleted subnet is read. *)
Theorem delete_then_add_is_new (ipam : IPAM) (name cidrStr : string)
  (excludeIps : list string) :
  cidrInvalid cidrStr = false ->
  AddOrUpdateSubnet (DeleteSubnet ipam name) name cidrStr excludeIps
  = match NewSubnet name cidrStr excludeIps with
    | inl subnet => (store ipam name subnet, [], None)
    | inr err => (DeleteSubnet ipam name, [], Some err)
    end.
Proof.
  intros Hok. apply parseCidrs_error in Hok. unfold AddOrUpdateSubnet.
  destruct (parseCidrs cidrStr) as [protocol [[v4cidrStr v6cidrStr] err]].
  simpl in Hok. subst err.
  destruct (splitIpsByProtocol excludeIps) as [v4ExcludeIps v6ExcludeIps].
  replace (Subnets (DeleteSubnet ipam name) !! name) with (@None Subnet)
    by (unfold DeleteSubnet; simpl; by rewrite lookup_delete_eq).
  destruct (NewSubnet name cidrStr excludeIps) as [s|e]; [|done].
  by rewrite store_DeleteSubnet.
Qed.

(** [delete_then_add_is_new] at [demo.regX]: the owner of the deleted [x]
    is gone from the [x] that is added. *)
Lemma delete_then_add_is_new_witness :
  V4PodToIP <$> Subnets demo.regX !! "x" = Some {[ "p1" := "10.0.0.3" ]} /\
  V4PodToIP <$>
    Subnets (fst (fst (AddOrUpdateSubnet (DeleteSubnet demo.regX "x") "x" "10.0.0.0/30" [])))
      !! "x" = Some ∅.
Proof.
  split; [vm_compute; reflexivity|].
  rewrite (delete_then_add_is_new demo.regX "x" "10.0.0.0/30" []) by (vm_compute; reflexivity).
  vm_compute. reflexivity.
Defined.

(** X6.  After [DeleteSubnet] both allocation calls for the name fail with
    [NoAvailableError], return three empty strings and leave the registry
    as the deletion left it. *)
Theorem allocation_after_delete_fails (ipam : IPAM) (seed : nat)
  (podName ip mac subnetName : string) :
  let ipam' := DeleteSubnet ipam subnetName in
  GetRandomAddress ipam' seed podName subnetName
    = (ipam', ("", "", "", Some NoAvailableError)) /\
  GetStaticAddress ipam' podName ip mac subnetName
    = (ipam', ("", "", "", Some NoAvailableError)).
Proof.
  intros ipam'. unfold GetRandomAddress, GetStaticAddress.
  replace (Subnets ipam' !! subnetName) with (@None Subnet)
    by (unfold ipam', DeleteSubnet; simpl; by rewrite lookup_delete_eq).
  done.
Qed.

(** X7.  [ReleaseAddressByPod] releases in every subnet on its own: each
    name maps to the released subnet it mapped to, no name is added or
    removed, and the release can be made before or after a deletion. *)
Theorem ReleaseAddressByPod_every_subnet (ipam : IPAM) (podName name : string) :
  Subnets (ReleaseAddressByPod ipam podName) !! name
    = (fun subnet => subnet.ReleaseAddress subnet podName) <$> Subnets ipam !! name /\
  (is_Some (Subnets (ReleaseAddressByPod ipam podName) !! name)
   <-> is_Some (Subnets ipam !! name)) /\
  ReleaseAddressByPod (DeleteSubnet ipam name) podName
    = DeleteSubnet (ReleaseAddressByPod ipam podName) name.
Proof.
  unfold ReleaseAddressByPod, DeleteSubnet. simpl. rewrite lookup_fmap. repeat split.
  - intros [s Hs]. destruct (Subnets ipam !! name); [by eexists|done].
  - intros [s ->]. by eexists.
  - by rewrite fmap_delete.
Qed.

End RegistryFrames.

(** ** More of the queries of the registry *)

Section RegistryQueries.

Import ipam.

Lemma appendPodAddress_sound podName subnet a :
  In a (appendPodAddress podName [] subnet) -> Subnet_ a = subnet.
Proof.
  unfold appendPodAddress.
  destruct (subnet.GetPodAddress subnet podName) as [[[v4IP v6IP] mac] protocol].
  destruct (String.eqb protocol kubeovnv1.ProtocolIPv4);
    [|destruct (String.eqb protocol kubeovnv1.ProtocolIPv6)];
    simpl; intros H; repeat (destruct H as [<-|H]; [done|]); done.
Qed.

Lemma entriesFor_bounds podName subnet : (1 <= entriesFor podName subnet <= 2)%nat.
Proof. unfold entriesFor. destruct (_ || _); lia. Qed.

(** X8.  Every entry of [GetPodAddress] points to a subnet that is
    registered.  The result is made of one block of entries for each
    registered subnet, in the order the subnets are visited; a block has
    one or two entries and all of them point to its subnet.  So the result
    has at least as many entries as there are subnets and at most twice as
    many. *)
Theorem GetPodAddress_registered_subnets (ipam : IPAM) (podName : string) :
  (forall a, In a (GetPodAddress ipam podName) ->
     exists name, Subnets ipam !! name = Some (Subnet_ a)) /\
  (exists blocks : list (list SubnetAddress),
     GetPodAddress ipam podName = concat blocks /\
     Forall2 (fun '(_, subnet) block =>
                (1 <= length block <= 2)%nat /\
                Forall (fun a => Subnet_ a = subnet) block)
             (map_to_list (Subnets ipam)) blocks) /\
  (size (Subnets ipam) <= length (GetPodAddress ipam podName) <= 2 * size (Subnets ipam))%nat.
Proof.
  rewrite GetPodAddress_flat. split; [|split].
  - intros a Ha. apply in_flat_map in Ha as [[name subnet] [Hin Ha]].
    apply appendPodAddress_sound in Ha. subst subnet.
    exists name. by apply elem_of_map_to_list, list_elem_of_In.
  - exists (map (fun '(_, subnet) => appendPodAddress podName [] subnet)
                (map_to_list (Subnets ipam))).
    split; [apply flat_map_concat_map|].
    induction (map_to_list (Subnets ipam)) as [|[n subnet] l IH]; simpl; constructor; [|done].
    split.
    + destruct (appendPodAddress_entries podName subnet) as [-> _].
      apply entriesFor_bounds.
    + apply Forall_forall. intros a Ha. apply list_elem_of_In in Ha.
      by apply (appendPodAddress_sound podName).
  - rewrite <- length_map_to_list.
    induction (map_to_list (Subnets ipam)) as [|[n subnet] l IH]; simpl; [lia|].
    rewrite length_app.
    destruct (appendPodAddress_entries podName subnet) as [-> _].
    pose proof (entriesFor_bounds podName subnet). lia.
Qed.

Lemma ContainAddress_iff ipam address :
  ContainAddress ipam address = true <->
  exists name subnet, Subnets ipam !! name = Some subnet /\
                      subnet.ContainAddress subnet address = true.
Proof.
  unfold ContainAddress. rewrite existsb_exists. split.
  - intros [[name subnet] [Hin Hc]]. exists name, subnet. split; [|done].
    by apply elem_of_map_to_list, list_elem_of_In.
  - intros (name & subnet & Hs & Hc). exists (name, subnet). split; [|done].
    by apply list_elem_of_In, elem_of_map_to_list.
Qed.

(** X9.  [ContainAddress] answers true exactly when some registered subnet
    contains the address, whatever the order the subnets are visited in. *)
Theorem ContainAddress_some_subnet (ipam : IPAM) (address : string) :
  ContainAddress ipam address = true <->
  exists name subnet, Subnets ipam !! name = Some subnet /\
                      subnet.ContainAddress subnet address = true.
Proof.
  unfold ContainAddress. rewrite existsb_exists. split.
  - intros [[name subnet] [Hin Hc]]. exists name, subnet.
    apply list_elem_of_In, elem_of_map_to_list in Hin. done.
  - intros (name & subnet & Hs & Hc). exists (name, subnet).
    apply elem_of_map_to_list, list_elem_of_In in Hs. done.
Qed.

(** X10.  The empty registry contains no address, and deleting a subnet
    never makes an address contained that was not. *)
Theorem ContainAddress_delete_monotone (ipam : IPAM) (subnetName address : string) :
  ContainAddress NewIPAM address = false /\
  (ContainAddress ipam address = false ->
   ContainAddress (DeleteSubnet ipam subnetName) address = false).
Proof.
  split.
  - unfold ContainAddress, NewIPAM. simpl. by rewrite map_to_list_empty.
  - intros Hno. destruct (ContainAddress (DeleteSubnet ipam subnetName) address) eqn:E; [|done].
    apply ContainAddress_iff in E as (name & subnet & Hs & Hc).
    rewrite <- Hno. symmetry. apply ContainAddress_iff. exists name, subnet.
    split; [|done]. unfold DeleteSubnet in Hs. simpl in Hs.
    apply lookup_delete_Some in Hs. tauto.
Qed.

(** [ContainAddress_delete_monotone] at [demo.regXD] and an address of no
    subnet. *)
Lemma ContainAddress_delete_monotone_witness :
  ContainAddress (DeleteSubnet demo.regXD "d") "192.168.0.1" = false.
Proof.
  apply (proj2 (ContainAddress_delete_monotone demo.regXD "d" "192.168.0.1")).
  vm_compute. reflexivity.
Defined.

End RegistryQueries.

(** ** The gateway: the NAT queries and [runGateway] *)

Section Gateway.

Lemma foldl_natSubnet c protocol (subnets : list kubeovnv1.Subnet) (acc : list string) :
  foldl (fun subnetsNeedNat subnet =>
           if String.eqb (kubeovnv1.GatewayType (kubeovnv1.Spec subnet))
                         kubeovnv1.GWCentralizedType
              && String.eqb (kubeovnv1.ActivateGateway (kubeovnv1.Status subnet))
                            (daemon.NodeName (daemon.config c))
              && String.eqb (kubeovnv1.Protocol (kubeovnv1.Spec subnet)) protocol
              && kubeovnv1.NatOutgoing (kubeovnv1.Spec subnet)
           then (subnetsNeedNat ++ [kubeovnv1.CIDRBlock (kubeovnv1.Spec subnet)])%list
           else subnetsNeedNat) acc subnets
  = (acc ++ map (fun subnet => kubeovnv1.CIDRBlock (kubeovnv1.Spec subnet))
              (List.filter (natSubnet c protocol) subnets))%list.
Proof.
  revert acc. induction subnets as [|x l IH]; intros acc; simpl.
  - by rewrite app_nil_r.
  - rewrite IH. unfold natSubnet at 2.
    destruct (_ && _ && _ && _); simpl; [|done]. by rewrite <- app_assoc.
Qed.

Lemma getSubnetsNeedNAT_eq c protocol :
  daemon.getSubnetsNeedNAT c protocol =
    match snd (daemon.subnetsLister c) with
    | None =>
        (Some (map (fun subnet => kubeovnv1.CIDRBlock (kubeovnv1.Spec subnet))
                   (List.filter (natSubnet c protocol) (fst (daemon.subnetsLister c)))),
         None)
    | Some e => (None, Some e)
    end.
Proof.
  unfold daemon.getSubnetsNeedNAT.
  destruct (daemon.subnetsLister c) as [subnets [e|]]; [done|].
  by rewrite foldl_natSubnet.
Qed.

(** X11.  [getSubnetsNeedNAT] returns the CIDR blocks of the listed
    subnets that have a centralized gateway active on this node, the
    protocol asked for and outgoing NAT, in listing order and nothing else;
    when the subnets cannot be listed it returns the lister's error and no
    list. *)
Theorem getSubnetsNeedNAT_contents (c : daemon.Controller) (protocol : string)
  (subnets : list kubeovnv1.Subnet) (err : option error) :
  daemon.subnetsLister c = (subnets, err) ->
  daemon.getSubnetsNeedNAT c protocol =
    match err with
    | None =>
        (Some (map (fun subnet => kubeovnv1.CIDRBlock (kubeovnv1.Spec subnet))
                   (List.filter (natSubnet c protocol) subnets)),
         None)
    | Some e => (None, Some e)
    end.
Proof.
  intros Hlist. unfold daemon.getSubnetsNeedNAT. rewrite Hlist.
  destruct err as [e|]; [done|].
  by rewrite foldl_natSubnet.
Qed.

(** [getSubnetsNeedNAT_contents] at [demo.ctlNat]: of the three subnets
    only the centralized one with its gateway on [node1] is returned. *)
Lemma getSubnetsNeedNAT_contents_witness :
  daemon.getSubnetsNeedNAT demo.ctlNat "IPv4" = (Some ["10.17.0.0/16"], None).
Proof.
  apply (getSubnetsNeedNAT_contents demo.ctlNat "IPv4"
           (fst (daemon.subnetsLister demo.ctlNat)) None).
  reflexivity.
Defined.

(** X12.  Every CIDR that [getSubnetsNeedNAT] returns is also returned by
    [getSubnetsCIDR] for the same protocol: the set of NAT sources is part
    of the set of subnets. *)
Theorem getSubnetsNeedNAT_within_getSubnetsCIDR (c : daemon.Controller)
  (protocol : string) (subnetsNeedNat : list string) :
  daemon.getSubnetsNeedNAT c protocol = (Some subnetsNeedNat, None) ->
  exists subnets,
    daemon.getSubnetsCIDR c protocol = (Some subnets, None) /\
    forall cidr, In cidr subnetsNeedNat -> In cidr subnets.
Proof.
  rewrite getSubnetsNeedNAT_eq. unfold daemon.getSubnetsCIDR.
  destruct (daemon.subnetsLister c) as [subnets [e|]]; simpl; [done|].
  intros [= <-]. eexists. split; [reflexivity|].
  intros cidr Hin. rewrite foldl_matching. apply in_or_app. right.
  apply in_map_iff in Hin as (subnet & <- & Hin).
  apply in_map_iff. exists subnet. split; [done|].
  apply filter_In in Hin as [Hin Hnat]. apply filter_In. split; [done|].
  unfold natSubnet in Hnat.
  by destruct (String.eqb (kubeovnv1.Protocol (kubeovnv1.Spec subnet)) protocol);
    [|rewrite andb_false_r in Hnat].
Qed.

(** [getSubnetsNeedNAT_within_getSubnetsCIDR] at [demo.ctlNat]. *)
Lemma getSubnetsNeedNAT_within_getSubnetsCIDR_witness :
  exists subnets,
    daemon.getSubnetsCIDR demo.ctlNat "IPv4" = (Some subnets, None) /\
    In "10.17.0.0/16" subnets.
Proof.
  destruct (getSubnetsNeedNAT_within_getSubnetsCIDR demo.ctlNat "IPv4" ["10.17.0.0/16"])
    as (subnets & Heq & Hin); [reflexivity|].
  exists subnets. split; [exact Heq|]. apply Hin. by left.
Defined.

Lemma foldl_natPod k protocol (allPods : list corev1.Pod) (acc : list string) :
  foldl (fun localPodIPs pod =>
           if corev1.HostNetwork (corev1.Spec pod)
              || String.eqb (corev1.PodIP (corev1.Status pod)) ""
           then localPodIPs
           else
             match daemon.subnetsGet k (corev1.LogicalSwitch pod) with
             | inr _ => localPodIPs
             | inl subnet =>
                 let nsGWType := kubeovnv1.GatewayType (kubeovnv1.Spec subnet) in
                 let nsGWNat := kubeovnv1.NatOutgoing (kubeovnv1.Spec subnet) in
                 if nsGWNat
                    && String.eqb nsGWType kubeovnv1.GWDistributedType
                    && String.eqb (corev1.NodeName (corev1.Spec pod)) (daemon.KUBE_NODE_NAME k)
                    && String.eqb (util.CheckProtocol (corev1.PodIP (corev1.Status pod)))
                                  protocol
                 then (localPodIPs ++ [corev1.PodIP (corev1.Status pod)])%list
                 else localPodIPs
             end) acc allPods
  = (acc ++ map (fun pod => corev1.PodIP (corev1.Status pod))
              (List.filter (natPod k protocol) allPods))%list.
Proof.
  revert acc. induction allPods as [|pod l IH]; intros acc; simpl.
  - by rewrite app_nil_r.
  - rewrite IH. unfold natPod at 2.
    destruct (corev1.HostNetwork (corev1.Spec pod)); simpl; [done|].
    destruct (String.eqb (corev1.PodIP (corev1.Status pod)) ""); simpl; [done|].
    destruct (daemon.subnetsGet k (corev1.LogicalSwitch pod)) as [subnet|e]; [|done].
    destruct (_ && _ && _ && _); simpl; [|done]. by rewrite <- app_assoc.
Qed.

Lemma getLocalPodIPsNeedNAT_eq k protocol :
  daemon.getLocalPodIPsNeedNAT k protocol =
    match snd (daemon.podsLister k) with
    | None =>
        (Some (map (fun pod => corev1.PodIP (corev1.Status pod))
                   (List.filter (natPod k protocol) (fst (daemon.podsLister k)))),
         None)
    | Some e => (None, Some e)
    end.
Proof.
  unfold daemon.getLocalPodIPsNeedNAT.
  destruct (daemon.podsLister k) as [allPods [e|]]; [done|].
  by rewrite foldl_natPod.
Qed.

(** X13.  [getLocalPodIPsNeedNAT] returns one address for each selected
    pod, in listing order, and returns that list with no error even when
    looking up the subnet of some pod fails: a lookup error only skips the
    pod.  When the pods cannot be listed it returns the lister's error and
    no list. *)
Theorem getLocalPodIPsNeedNAT_contents (k : daemon.Cluster) (protocol : string)
  (allPods : list corev1.Pod) (err : option error) :
  daemon.podsLister k = (allPods, err) ->
  daemon.getLocalPodIPsNeedNAT k protocol =
    match err with
    | None =>
        (Some (map (fun pod => corev1.PodIP (corev1.Status pod))
                   (List.filter (natPod k protocol) allPods)),
         None)
    | Some e => (None, Some e)
    end.
Proof.
  intros Hlist. unfold daemon.getLocalPodIPsNeedNAT. rewrite Hlist.
  destruct err as [e|]; [done|].
  by rewrite foldl_natPod.
Qed.

(** [getLocalPodIPsNeedNAT_contents] at [demo.cluster]: of the four pods
    only the first is on this node, off the host network and of a subnet
    the lister knows. *)
Lemma getLocalPodIPsNeedNAT_contents_witness :
  daemon.getLocalPodIPsNeedNAT demo.cluster "IPv4" = (Some ["10.16.0.5"], None).
Proof.
  rewrite (getLocalPodIPsNeedNAT_contents demo.cluster "IPv4"
             (fst (daemon.podsLister demo.cluster)) None) by reflexivity.
  vm_compute. reflexivity.
Defined.

(** X14.  An address is in the result of [getLocalPodIPsNeedNAT] exactly
    when it is the non-empty address of a listed pod that is not on the
    host network, runs on this node, has an address of the protocol asked
    for, and whose subnet is found, is distributed and has outgoing NAT. *)
Theorem getLocalPodIPsNeedNAT_members (k : daemon.Cluster) (protocol : string)
  (localPodIPs : list string) (ip : string) :
  daemon.getLocalPodIPsNeedNAT k protocol = (Some localPodIPs, None) ->
  In ip localPodIPs <->
  exists pod subnet,
    In pod (fst (daemon.podsLister k)) /\
    corev1.PodIP (corev1.Status pod) = ip /\ ip <> "" /\
    corev1.HostNetwork (corev1.Spec pod) = false /\
    corev1.NodeName (corev1.Spec pod) = daemon.KUBE_NODE_NAME k /\
    util.CheckProtocol ip = protocol /\
    daemon.subnetsGet k (corev1.LogicalSwitch pod) = inl subnet /\
    kubeovnv1.GatewayType (kubeovnv1.Spec subnet) = kubeovnv1.GWDistributedType /\
    kubeovnv1.NatOutgoing (kubeovnv1.Spec subnet) = true.
Proof.
  rewrite getLocalPodIPsNeedNAT_eq.
  destruct (daemon.podsLister k) as [allPods [e|]]; simpl; [done|].
  intros [= <-]. rewrite in_map_iff. split.
  - intros (pod & <- & Hin). apply filter_In in Hin as [Hin Hnat].
    unfold natPod in Hnat.
    destruct (daemon.subnetsGet k (corev1.LogicalSwitch pod)) as [subnet|e] eqn:Hget;
      [|by rewrite andb_false_r in Hnat].
    apply andb_prop in Hnat as [Hpod Hsub]. apply andb_prop in Hpod as [Hhost Hne].
    apply andb_prop in Hsub as [Hsub Hproto]. apply andb_prop in Hsub as [Hsub Hnode].
    apply andb_prop in Hsub as [Hnat Hgw].
    apply negb_true_iff in Hhost, Hne.
    apply String.eqb_eq in Hproto, Hnode, Hgw.
    exists pod, subnet. repeat split; try done.
    intros Hempty. rewrite Hempty in Hne. done.
  - intros (pod & subnet & Hin & <- & Hne & Hhost & Hnode & Hproto & Hget & Hgw & Hnat).
    exists pod. split; [done|]. apply filter_In. split; [done|].
    unfold natPod. rewrite Hget, Hhost, Hnat, Hgw, Hnode, Hproto. simpl.
    rewrite !String.eqb_refl. simpl.
    destruct (String.eqb (corev1.PodIP (corev1.Status pod)) "") eqn:E; [|done].
    by apply String.eqb_eq in E.
Qed.

(** [getLocalPodIPsNeedNAT_members] at [demo.cluster]: no pod that meets
    the conditions has the address of the host-network pod. *)
Lemma getLocalPodIPsNeedNAT_members_witness :
  In "192.168.1.10" ["10.16.0.5"] <->
  exists pod subnet,
    In pod (fst (daemon.podsLister demo.cluster)) /\
    corev1.PodIP (corev1.Status pod) = "192.168.1.10" /\ "192.168.1.10" <> "" /\
    corev1.HostNetwork (corev1.Spec pod) = false /\
    corev1.NodeName (corev1.Spec pod) = "node1" /\
    util.CheckProtocol "192.168.1.10" = "IPv4" /\
    daemon.subnetsGet demo.cluster (corev1.LogicalSwitch pod) = inl subnet /\
    kubeovnv1.GatewayType (kubeovnv1.Spec subnet) = kubeovnv1.GWDistributedType /\
    kubeovnv1.NatOutgoing (kubeovnv1.Spec subnet) = true.
Proof.
  apply (getLocalPodIPsNeedNAT_members demo.cluster "IPv4" ["10.16.0.5"] "192.168.1.10").
  vm_compute. reflexivity.
Defined.

End Gateway.

(** ** [runGateway]: the sets and the rules *)

Section Reconcile.

Context {S T : Type} {sets : daemon.IPSets S} {tables : daemon.IPTables T}.

Lemma ensureRules_present (iptable : T) (rules : list util.IPTableRule) :
  Forall (present iptable) rules -> daemon.ensureRules iptable rules = (iptable, []).
Proof.
  induction 1 as [|r rules Hr _ IH]; simpl; [done|].
  unfold present in Hr. by rewrite Hr.
Qed.

Lemma ensureRules_installs (rules : list util.IPTableRule) :
  insert_lawful T ->
  forall iptable iptable' : T,
    daemon.ensureRules iptable rules = (iptable', []) ->
    (forall r, present iptable r -> present iptable' r) /\
    Forall (present iptable') rules.
Proof.
  intros Hlaw. induction rules as [|r rules IH]; intros iptable iptable' Hrun; simpl in Hrun.
  - injection Hrun as <-. by split.
  - destruct (daemon.Exists iptable (util.Table r) (util.Chain r) (util.Rule r))
      as [exists_ [e|]] eqn:Hex; [done|].
    destruct exists_; simpl in Hrun.
    + apply IH in Hrun as [Hkeep Hall]. split; [done|].
      constructor; [|done]. by apply Hkeep.
    + destruct (daemon.Insert iptable (util.Table r) (util.Chain r) 1 (util.Rule r))
        as [iptable1 [e|]] eqn:Hins; [done|].
      apply Hlaw in Hins as [Hnew Hkeep1].
      apply IH in Hrun as [Hkeep Hall]. split.
      * intros r' Hr'. by apply Hkeep, Hkeep1.
      * constructor; [|done]. by apply Hkeep.
Qed.

Lemma runGateway_listed (c : daemon.Controller) (k : daemon.Cluster) (ipset : S) (iptable : T) :
  snd (daemon.subnetsLister c) = None -> snd (daemon.podsLister k) = None ->
  exists ipset',
    daemon.runGateway c k ipset iptable
    = (ipset', fst (daemon.ensureRules iptable (gatewayRules c)),
       snd (daemon.ensureRules iptable (gatewayRules c))).
Proof.
  intros Hsub Hpod. unfold daemon.runGateway.
  rewrite getSubnetsNeedNAT_eq, getLocalPodIPsNeedNAT_eq, Hsub, Hpod.
  unfold daemon.getSubnetsCIDR.
  destruct (daemon.subnetsLister c) as [subnets err]. simpl in Hsub. subst err.
  unfold gatewayRules. destruct (String.eqb (daemon.protocol c) kubeovnv1.ProtocolIPv4).
  - destruct (daemon.ensureRules iptable _) as [iptable' log]. by eexists.
  - destruct (daemon.ensureRules iptable _) as [iptable' log]. by eexists.
Qed.

Lemma runGateway_not_listed (c : daemon.Controller) (k : daemon.Cluster)
  (ipset : S) (iptable : T) :
  snd (daemon.subnetsLister c) <> None \/ snd (daemon.podsLister k) <> None ->
  exists line, daemon.runGateway c k ipset iptable = (ipset, iptable, [line]).
Proof.
  intros Hfail. unfold daemon.runGateway.
  rewrite getSubnetsNeedNAT_eq, getLocalPodIPsNeedNAT_eq. unfold daemon.getSubnetsCIDR.
  destruct (daemon.subnetsLister c) as [subnets [e|]]; simpl in *; [by eexists|].
  destruct (daemon.podsLister k) as [allPods [e|]]; simpl in *; [by eexists|].
  by destruct Hfail.
Qed.

(** X15.  When the subnets or the pods cannot be listed, [runGateway]
    writes one error line and returns at once: no IP set is replaced and no
    rule is looked up or inserted. *)
Theorem runGateway_query_failure (c : daemon.Controller) (k : daemon.Cluster)
  (ipset : S) (iptable : T) :
  snd (daemon.subnetsLister c) <> None \/ snd (daemon.podsLister k) <> None ->
  exists line, daemon.runGateway c k ipset iptable = (ipset, iptable, [line]).
Proof.
  intros [Hsub|Hpod]; unfold daemon.runGateway, daemon.getSubnetsCIDR.
  - destruct (daemon.subnetsLister c) as [subnets [e|]]; [by eexists|done].
  - destruct (daemon.subnetsLister c) as [subnets [e|]]; [by eexists|].
    unfold daemon.getLocalPodIPsNeedNAT.
    destruct (daemon.podsLister k) as [allPods [e|]]; [by eexists|done].
Qed.

(** X16.  When the three queries succeed, [runGateway] replaces the set
    [subnets] by the result of [getSubnetsCIDR], the set [local-pod-ip-nat]
    by the result of [getLocalPodIPsNeedNAT] and the set [subnets-nat] by
    the result of [getSubnetsNeedNAT], and applies the updates, whatever
    the iptables client answers afterwards. *)
Theorem runGateway_replaces_sets (c : daemon.Controller) (k : daemon.Cluster)
  (ipset : S) (iptable : T) (subnets localPodIPs subnetsNeedNat : list string) :
  daemon.getSubnetsCIDR c (daemon.protocol c) = (Some subnets, None) ->
  daemon.getLocalPodIPsNeedNAT k (daemon.protocol c) = (Some localPodIPs, None) ->
  daemon.getSubnetsNeedNAT c (daemon.protocol c) = (Some subnetsNeedNat, None) ->
  fst (fst (daemon.runGateway c k ipset iptable))
  = daemon.ApplyUpdates
      (daemon.AddOrReplaceIPSet
         (daemon.AddOrReplaceIPSet
            (daemon.AddOrReplaceIPSet ipset
               (ipsets.mkIPSetMetadata 1048576 daemon.SubnetSet ipsets.IPSetTypeHashNet)
               subnets)
            (ipsets.mkIPSetMetadata 1048576 daemon.LocalPodSet ipsets.IPSetTypeHashIP)
            localPodIPs)
         (ipsets.mkIPSetMetadata 1048576 daemon.SubnetNatSet ipsets.IPSetTypeHashNet)
         subnetsNeedNat).
Proof.
  intros Hsubnets Hpods Hnat. unfold daemon.runGateway.
  rewrite Hsubnets, Hpods, Hnat. cbv beta iota zeta.
  destruct (String.eqb (daemon.protocol c) kubeovnv1.ProtocolIPv4);
    by destruct (daemon.ensureRules iptable _) as [iptable' log].
Qed.

(** X17.  When the four rules of the controller's family are there,
    [runGateway] leaves the iptables client as it is and writes no error:
    it inserts a rule only when the client reports it missing. *)
Theorem runGateway_keeps_present_rules (c : daemon.Controller) (k : daemon.Cluster)
  (ipset : S) (iptable : T) :
  snd (daemon.subnetsLister c) = None -> snd (daemon.podsLister k) = None ->
  Forall (present iptable) (gatewayRules c) ->
  snd (fst (daemon.runGateway c k ipset iptable)) = iptable /\
  snd (daemon.runGateway c k ipset iptable) = [].
Proof.
  intros Hsub Hpod Hall.
  destruct (runGateway_listed c k ipset iptable Hsub Hpod) as [ipset' ->].
  by rewrite (ensureRules_present _ _ Hall).
Qed.

(** X18.  With an iptables client that keeps what is inserted, a run of
    [runGateway] that writes no error leaves the four rules of the
    controller's family in place, and a second run changes nothing of the
    rules and writes no error either. *)
Theorem runGateway_installs_rules (c : daemon.Controller) (k : daemon.Cluster)
  (ipset ipset' : S) (iptable iptable' : T) :
  insert_lawful T ->
  daemon.runGateway c k ipset iptable = (ipset', iptable', []) ->
  Forall (present iptable') (gatewayRules c) /\
  forall ipset2 : S, exists ipset3,
    daemon.runGateway c k ipset2 iptable' = (ipset3, iptable', []).
Proof.
  intros Hlaw Hrun.
  assert (snd (daemon.subnetsLister c) = None /\ snd (daemon.podsLister k) = None)
    as [Hsub Hpod].
  { destruct (snd (daemon.subnetsLister c)) as [e|] eqn:Es.
    - destruct (runGateway_not_listed c k ipset iptable) as [line Hline];
        [left; by rewrite Es|]. congruence.
    - destruct (snd (daemon.podsLister k)) as [e|] eqn:Ep; [|done].
      destruct (runGateway_not_listed c k ipset iptable) as [line Hline];
        [right; by rewrite Ep|]. congruence. }
  destruct (runGateway_listed c k ipset iptable Hsub Hpod) as [ipset1 Heq].
  rewrite Heq in Hrun.
  destruct (daemon.ensureRules iptable (gatewayRules c)) as [t log] eqn:Hrules.
  simpl in Hrun. injection Hrun as _ -> ->.
  apply (ensureRules_installs _ Hlaw) in Hrules as [_ Hall]. split; [done|].
  intros ipset2.
  destruct (runGateway_listed c k ipset2 iptable' Hsub Hpod) as [ipset3 ->].
  exists ipset3. by rewrite (ensureRules_present _ _ Hall).
Qed.

Lemma ensureRules_no_error (rules : list util.IPTableRule) :
  never_fails T -> forall iptable : T, snd (daemon.ensureRules iptable rules) = [].
Proof.
  intros Hok. induction rules as [|r rules IH]; intros iptable; simpl; [done|].
  destruct (Hok iptable (util.Table r) (util.Chain r) 1 (util.Rule r)) as [Hex Hins].
  destruct (daemon.Exists iptable _ _ _) as [exists_ err]. simpl in Hex. subst err.
  destruct exists_; simpl; [apply IH|].
  destruct (daemon.Insert iptable _ _ _ _) as [iptable' err]. simpl in Hins. subst err.
  apply IH.
Qed.

(** X19.  With an iptables client that returns no error and keeps what is
    inserted, one run of [runGateway] on a cluster that can be listed
    writes no error and ends with the four rules of the controller's
    family in place, whatever rules were there before. *)
Theorem runGateway_reconciles (c : daemon.Controller) (k : daemon.Cluster)
  (ipset : S) (iptable : T) :
  never_fails T -> insert_lawful T ->
  snd (daemon.subnetsLister c) = None -> snd (daemon.podsLister k) = None ->
  snd (daemon.runGateway c k ipset iptable) = [] /\
  Forall (present (snd (fst (daemon.runGateway c k ipset iptable)))) (gatewayRules c).
Proof.
  intros Hok Hlaw Hsub Hpod.
  destruct (runGateway_listed c k ipset iptable Hsub Hpod) as [ipset' ->]. simpl.
  pose proof (ensureRules_no_error (gatewayRules c) Hok iptable) as Hlog.
  destruct (daemon.ensureRules iptable (gatewayRules c)) as [iptable' log] eqn:Hrules.
  simpl in *. subst log. split; [done|].
  by apply (ensureRules_installs _ Hlaw) in Hrules as [_ Hall].
Qed.

End Reconcile.

Section ReconcileExamples.

#[local] Existing Instances demo.setTable demo.ruleList.

Lemma ruleList_lawful : insert_lawful (list util.IPTableRule).
Proof.
  intros iptable iptable' table chain rule [= <-]. split.
  - simpl. rewrite bool_decide_eq_true_2; [done|]. by left.
  - intros r. unfold present. simpl. intros [= Hr]. apply bool_decide_eq_true in Hr.
    rewrite bool_decide_eq_true_2; [done|]. by right.
Qed.

(** [runGateway_query_failure] at [demo.clusterDown]. *)
Lemma runGateway_query_failure_witness :
  exists line,
    daemon.runGateway demo.ctlNat demo.clusterDown ∅ [] = (∅, [], [line]).
Proof.
  apply (runGateway_query_failure demo.ctlNat demo.clusterDown ∅ []).
  right. discriminate.
Defined.

(** [runGateway_replaces_sets] at [demo.ctlNat] and [demo.cluster]. *)
Lemma runGateway_replaces_sets_witness :
  fst (fst (daemon.runGateway demo.ctlNat demo.cluster ∅ []))
  = <[ "subnets-nat" := ["10.17.0.0/16"] ]>
      (<[ "local-pod-ip-nat" := ["10.16.0.5"] ]>
         (<[ "subnets" := ["10.96.0.0/12"; "10.17.0.0/16"; "10.18.0.0/16"; "10.16.0.0/16"] ]>
            ∅)).
Proof.
  rewrite (runGateway_replaces_sets demo.ctlNat demo.cluster ∅ []
             ["10.96.0.0/12"; "10.17.0.0/16"; "10.18.0.0/16"; "10.16.0.0/16"]
             ["10.16.0.5"] ["10.17.0.0/16"])
    by (vm_compute; reflexivity).
  reflexivity.
Defined.

(** [runGateway_keeps_present_rules] at a rule list that has the four IPv4
    rules and one more. *)
Lemma runGateway_keeps_present_rules_witness :
  let iptable :=
    [daemon.subnetNatV4Rule; util.mkIPTableRule "filter" "INPUT" ["-j"; "ACCEPT"];
     daemon.podNatV4Rule; daemon.forwardAcceptRule2; daemon.forwardAcceptRule1] in
  snd (fst (daemon.runGateway demo.ctlNat demo.cluster ∅ iptable)) = iptable /\
  snd (daemon.runGateway demo.ctlNat demo.cluster ∅ iptable) = [].
Proof.
  intros iptable.
  apply (runGateway_keeps_present_rules demo.ctlNat demo.cluster ∅ iptable);
    [reflexivity|reflexivity|].
  repeat constructor; vm_compute; reflexivity.
Defined.

(** [runGateway_installs_rules] at [demo.ctlNat], [demo.cluster] and no
    rule at all. *)
Lemma runGateway_installs_rules_witness :
  Forall (present (snd (fst (daemon.runGateway demo.ctlNat demo.cluster ∅ []))))
         (gatewayRules demo.ctlNat).
Proof.
  apply (runGateway_installs_rules demo.ctlNat demo.cluster ∅
           (fst (fst (daemon.runGateway demo.ctlNat demo.cluster ∅ []))) []
           (snd (fst (daemon.runGateway demo.ctlNat demo.cluster ∅ []))) ruleList_lawful).
  vm_compute. reflexivity.
Defined.

Lemma ruleList_never_fails : never_fails (list util.IPTableRule).
Proof. by intros iptable table chain pos rule. Qed.

(** [runGateway_reconciles] at [demo.ctlNat], [demo.cluster] and a rule
    list that has one of the four rules. *)
Lemma runGateway_reconciles_witness :
  snd (daemon.runGateway demo.ctlNat demo.cluster ∅ [daemon.podNatV4Rule]) = [] /\
  Forall (present (snd (fst (daemon.runGateway demo.ctlNat demo.cluster ∅
                                [daemon.podNatV4Rule]))))
         (gatewayRules demo.ctlNat).
Proof.
  apply (runGateway_reconciles demo.ctlNat demo.cluster ∅ [daemon.podNatV4Rule]
           ruleList_never_fails ruleList_lawful);
    reflexivity.
Defined.

End ReconcileExamples.
